(** * react-quick-pinch-zoom: the gesture-to-transform engine of [PinchZoom]

    A shallow embedding of the [PinchZoom] component class and the
    properties of its transform state, boundary sanitizer, animation driver
    and gesture interpreter.

    JavaScript numbers are kept abstract behind the interface [Number]:
    the methods are written once, over any carrier [T], and read at two
    instances:
    - [float], Rocq's primitive IEEE 754 binary64 numbers, which are the
      numbers a JavaScript engine computes with (infinities, NaN, signed
      zeros and rounding included);
    - [R], exact real arithmetic, for the properties that rest on the laws
      of arithmetic and hold of the code up to rounding.
    A property that rests on no law of arithmetic is proved for every
    carrier.

    Methods of the class mutate [this]; here they pass the instance state
    [State] explicitly.  What a method does to its host (callbacks of the
    props, [requestAnimationFrame], [setTimeout], [cancelEvent]) is recorded
    in host-side fields of the same record. *)

From Stdlib Require Import Reals Lra Lia ZArith List Bool Floats.
Import ListNotations.

(** ** Numbers *)

(** The operations the component uses on numbers.  [Math_abs], [Math_max],
    [Math_min] and [Math_sqrt] are the functions destructured from [Math];
    [ltb], [leb] and [eqb] are [<], [<=] and [===]. *)
Class Number (T : Type) := {
  ofZ : Z -> T;
  add : T -> T -> T;
  sub : T -> T -> T;
  mul : T -> T -> T;
  div : T -> T -> T;
  opp : T -> T;
  Math_abs : T -> T;
  Math_max : T -> T -> T;
  Math_min : T -> T -> T;
  Math_sqrt : T -> T;
  ltb : T -> T -> bool;
  leb : T -> T -> bool;
  eqb : T -> T -> bool
}.

(** [Math.cos] and [Math.PI], which only the easing function [swing] uses.
    Binary64 has no cosine in Rocq, so the interface is separate and has one
    instance, the reals. *)
Class Trig (T : Type) := {
  Math_cos : T -> T;
  Math_PI : T
}.

Declare Scope js_scope.
Delimit Scope js_scope with js.
Notation "0" := (ofZ 0%Z) : js_scope.
Notation "1" := (ofZ 1%Z) : js_scope.
Notation "2" := (ofZ 2%Z) : js_scope.
Infix "+" := add : js_scope.
Infix "-" := sub : js_scope.
Infix "*" := mul : js_scope.
Infix "/" := div : js_scope.
Notation "- a" := (opp a) : js_scope.
Notation "a <? b" := (ltb a b) (at level 70, no associativity) : js_scope.
Notation "a >? b" := (ltb b a) (at level 70, no associativity) : js_scope.
Notation "a <=? b" := (leb a b) (at level 70, no associativity) : js_scope.
Notation "a >=? b" := (leb b a) (at level 70, no associativity) : js_scope.
Notation "a =? b" := (eqb a b) (at level 70, no associativity) : js_scope.

(** *** Real numbers *)

(** Exact arithmetic: no rounding, no infinity, no NaN.  A property proved
    at this instance is a property of the formulas of the code; it holds of
    the code itself where the binary64 operations involved are exact. *)

Definition Rltb (a b : R) : bool := if Rlt_dec a b then true else false.
Definition Rleb (a b : R) : bool := if Rle_dec a b then true else false.
Definition Reqb (a b : R) : bool := if Req_dec_T a b then true else false.

#[export] Instance RNumber : Number R | 1 := {|
  ofZ := IZR;
  add := Rplus;
  sub := Rminus;
  mul := Rmult;
  div := Rdiv;
  opp := Ropp;
  Math_abs := Rabs;
  Math_max := Rmax;
  Math_min := Rmin;
  Math_sqrt := R_sqrt.sqrt;
  ltb := Rltb;
  leb := Rleb;
  eqb := Reqb
|}.

#[export] Instance RTrig : Trig R := {|
  Math_cos := cos;
  Math_PI := PI
|}.

(** *** Binary64 numbers *)

(** An integer as a binary64 number (exact below 2^53 in absolute value). *)
Definition float_ofZ (z : Z) : float :=
  match z with
  | Z0 => 0%float
  | Zpos _ => PrimFloat.of_uint63 (Uint63.of_Z z)
  | Zneg p => PrimFloat.opp (PrimFloat.of_uint63 (Uint63.of_Z (Zpos p)))
  end.

Definition is_negzero (a : float) : bool :=
  match PrimFloat.classify a with
  | NZero => true
  | _ => false
  end.

(** [Math.max]: NaN if either argument is NaN, and [+0] is larger than [-0]. *)
Definition float_max (a b : float) : float :=
  if PrimFloat.is_nan a || PrimFloat.is_nan b then nan
  else if PrimFloat.ltb a b then b
  else if PrimFloat.ltb b a then a
  else if is_negzero a then b else a.

(** [Math.min]: NaN if either argument is NaN, and [-0] is smaller than [+0]. *)
Definition float_min (a b : float) : float :=
  if PrimFloat.is_nan a || PrimFloat.is_nan b then nan
  else if PrimFloat.ltb a b then a
  else if PrimFloat.ltb b a then b
  else if is_negzero a then a else b.

#[export] Instance FloatNumber : Number float | 9 := {|
  ofZ := float_ofZ;
  add := PrimFloat.add;
  sub := PrimFloat.sub;
  mul := PrimFloat.mul;
  div := PrimFloat.div;
  opp := PrimFloat.opp;
  Math_abs := PrimFloat.abs;
  Math_max := float_max;
  Math_min := float_min;
  Math_sqrt := PrimFloat.sqrt;
  ltb := PrimFloat.ltb;
  leb := PrimFloat.leb;
  eqb := PrimFloat.eqb
|}.

(** ** The component *)

Section PinchZoom.

Context {T : Type} {NT : Number T}.
Local Open Scope js_scope.

(** *** Types (src/types) *)

Record Point := { x : T; y : T }.

(** [Interaction | null] is [option Interaction]. *)
Inductive Interaction := zoom | drag.

(** A [Touch] as the component reads it. *)
Record Touch := { pageX : T; pageY : T }.

(** A [TouchEvent]: the touches on the surface, in order. *)
Record TouchEvent := { touches : list Touch }.

Record WheelEvent := {
  ctrlKey : bool;
  metaKey : bool;
  wheelPageX : T;
  wheelPageY : T;
  deltaY : T;
  deltaMode : Z
}.

(** What the host reports: the container's bounding rectangle, the natural
    size of its child ([getElementSize]), the page scroll of [_html] and
    [_body], and whether [navigator.platform] names a Mac. *)
Record ClientRect := { top : T; left : T; width : T; height : T }.
Record ElementSize := { childWidth : T; childHeight : T }.
Record Host := {
  rect : ClientRect;
  child : ElementSize;
  html_scrollTop : T;
  html_scrollLeft : T;
  body_scrollTop : T;
  body_scrollLeft : T;
  isMac : bool
}.

(** [this.props].  The callback props are not fields: a call of one is
    recorded as an [Effect].  The field of the wheel predicate is
    [shouldInterceptWheelProp], its default being [shouldInterceptWheel]. *)
Record Props := {
  animationDuration : T;
  draggableUnZoomed : bool;
  enabled : bool;
  inertia : bool;
  inertiaFriction : T;
  horizontalPadding : T;
  lockDragAxis : bool;
  maxZoom : T;
  minZoom : T;
  shouldInterceptWheelProp : WheelEvent -> bool;
  tapZoomFactor : T;
  verticalPadding : T;
  wheelScaleFactor : T;
  zoomOutFactor : T
}.

(** *** Module-level functions *)

Definition isDragInteraction (i : option Interaction) : bool :=
  match i with Some drag => true | _ => false end.

Definition isZoomInteraction (i : option Interaction) : bool :=
  match i with Some zoom => true | _ => false end.

Definition isZoomGesture (host : Host) (wheelEvent : WheelEvent) : bool :=
  isMac host && ctrlKey wheelEvent.

Definition getDistance (a b : Point) : T :=
  let x := x a - x b in
  let y := y a - y b in
  Math_sqrt (x * x + y * y).

(** [startTouches[0]] and [startTouches[1]] must be points: reading [.x] of
    [undefined] throws, which is [None] here. *)
Definition calculateScale (startTouches endTouches : list Point) : option T :=
  match startTouches, endTouches with
  | s0 :: s1 :: _, e0 :: e1 :: _ =>
      let startDistance := getDistance s0 s1 in
      let endDistance := getDistance e0 e1 in
      Some (endDistance / startDistance)
  | _, _ => None
  end.

(** The literal [0.01]: the binary64 number nearest to 1/100 is the correctly
    rounded quotient of 1 by 100. *)
Definition tolerance : T := 1 / ofZ 100.

Definition isCloseTo (value expected : T) : bool :=
  (value >? expected - tolerance) && (value <? expected + tolerance).

Definition getPointByPageCoordinates (touch : Touch) : Point :=
  {| x := pageX touch; y := pageY touch |}.

Definition getPageCoordinatesByTouches (touches : list Touch) : list Point :=
  map getPointByPageCoordinates touches.

Definition sum (a b : T) : T := a + b.

(** [reduce(sum, 0)] folds from the left, starting at 0. *)
Definition getVectorAvg (vectors : list Point) : Point :=
  {| x := fold_left sum (map x vectors) 0 / ofZ (Z.of_nat (length vectors));
     y := fold_left sum (map y vectors) 0 / ofZ (Z.of_nat (length vectors)) |}.

Definition clamp (min max value : T) : T :=
  if value <? min then min else if value >? max then max else value.

Definition shouldInterceptWheel (event : WheelEvent) : bool :=
  negb (ctrlKey event || metaKey event).

Definition calculateVelocity (startPoint endPoint : Point) : Point :=
  {| x := x endPoint - x startPoint; y := y endPoint - y startPoint |}.

Definition comparePoints (p1 p2 : Point) : bool :=
  (x p1 =? x p2) && (y p1 =? y p2).

Definition zeroPoint : Point := {| x := 0; y := 0 |}.

(** A number in a condition: false for [0], [-0] and NaN. *)
Definition truthy (v : T) : bool := (v =? v) && negb (v =? 0).

(** *** What the component does to its host *)

(** Calls of the callback props, in the order they are made, and
    [cancelEvent] (stopPropagation and preventDefault of the event at hand).
    [onUpdate] carries the object it is called with. *)
Inductive Effect :=
| onDoubleTap
| onDragEnd
| onDragStart
| onDragUpdate
| onZoomEnd
| onZoomStart
| onZoomUpdate
| onUpdate (scale x y : T)
| cancelEvent.

(** The frame functions handed to [_animate], each a closure over the
    constants of the method that builds it:
    - [inertiaFrame]: [renderFrame] of [_realizeInertia], over
      [inertiaFriction] and the mutable velocity [x], [y];
    - [doubleTapFrame]: [updateProgress] of [_handleDoubleTap], whose
      [center] is [touches[0]] ([None] when there is no touch) or the
      current zoom center;
    - [scaleToFrame]: [updateFrame] of [scaleTo];
    - [sanitizeOffsetFrame]: [updateProgress] of [_sanitizeOffsetAnimation];
    - [zoomOutFrame]: [updateProgress] of [_zoomOutAnimation]. *)
Inductive FrameFn :=
| inertiaFrame (inertiaFriction x y : T)
| doubleTapFrame (startZoomFactor zoomFactor : T) (center : option Point)
| scaleToFrame (startZoomFactor diffZoomFactor : T) (startOffset diffOffset : Point)
| sanitizeOffsetFrame (startOffset targetOffset : Point)
| zoomOutFrame (startZoomFactor : T) (center : Point).

(** The only callback an animation is given is [() => this._sanitize()]. *)
Inductive Callback := sanitizeCallback.

(** [AnimateOptions], without [timeFn], which no caller sets. *)
Record AnimateOptions := {
  callback : option Callback;
  duration : option T
}.

(** The closure [renderFrame] of one call of [_animate]. *)
Record Animation := {
  startTime : Z;
  animCallback : option Callback;
  animDuration : T;
  frameFn : FrameFn
}.

(** What [requestAnimationFrame] is given: the deferred update of
    [_update], or the [renderFrame] of an animation. *)
Inductive FrameCallback :=
| updateCallback
| renderFrameCallback (a : Animation).

(** *** The instance *)

(** The fields of the instance the gesture engine reads or writes, with
    their initial values in [initialState] ([_hasInteraction],
    [_inAnimation] and [_velocity] start undefined, which conditions read
    as false).  The last five fields are the host's side: the [effects]
    made so far, the callbacks waiting for the next animation [frames], the
    handles of the pending [timers] and the next handle, and the clock
    [now] that [new Date().getTime()] reads, in milliseconds. *)
Record State := {
  _velocity : option Point;
  _prevDragMovePoint : option Point;
  _fingers : nat;
  _firstMove : bool;
  _hasInteraction : bool;
  _inAnimation : bool;
  _initialOffset : Point;
  _interaction : option Interaction;
  _isDoubleTap : bool;
  _lastDragPosition : option Point;
  _lastScale : T;
  _lastTouchStart : Z;
  _lastZoomCenter : option Point;
  _nthZoom : nat;
  _offset : Point;
  _startTouches : option (list Point);
  _updatePlaned : bool;
  _wheelTimeOut : option nat;
  _zoomFactor : T;
  _initialZoomFactor : T;
  _ignoreNextClick : bool;
  effects : list Effect;
  frames : list FrameCallback;
  timers : list nat;
  nextTimer : nat;
  now : Z
}.

Definition initialState : State :=
  {| _velocity := None;
     _prevDragMovePoint := None;
     _fingers := 0%nat;
     _firstMove := true;
     _hasInteraction := false;
     _inAnimation := false;
     _initialOffset := zeroPoint;
     _interaction := None;
     _isDoubleTap := false;
     _lastDragPosition := None;
     _lastScale := 1;
     _lastTouchStart := 0%Z;
     _lastZoomCenter := None;
     _nthZoom := 0%nat;
     _offset := zeroPoint;
     _startTouches := None;
     _updatePlaned := false;
     _wheelTimeOut := None;
     _zoomFactor := 1;
     _initialZoomFactor := 1;
     _ignoreNextClick := false;
     effects := [];
     frames := [];
     timers := [];
     nextTimer := 0%nat;
     now := 0%Z |}.

(** Assignment to one field: the record rebuilt from its projections, with
    the projection [proj] replaced by the new value. *)
Definition State_eta (st : State) : State :=
  Build_State (_velocity st) (_prevDragMovePoint st) (_fingers st) (_firstMove st)
    (_hasInteraction st) (_inAnimation st) (_initialOffset st) (_interaction st)
    (_isDoubleTap st) (_lastDragPosition st) (_lastScale st) (_lastTouchStart st)
    (_lastZoomCenter st) (_nthZoom st) (_offset st) (_startTouches st)
    (_updatePlaned st) (_wheelTimeOut st) (_zoomFactor st) (_initialZoomFactor st)
    (_ignoreNextClick st) (effects st) (frames st) (timers st) (nextTimer st) (now st).

Ltac setter eta proj :=
  let e := eval cbv beta delta [eta] in eta in
  lazymatch eval pattern proj in e with
  | ?f _ => let r := eval cbv beta in (fun v st => f (fun _ => v) st) in exact r
  end.

Definition set_velocity : option Point -> State -> State := ltac:(setter State_eta _velocity).
Definition set_prevDragMovePoint : option Point -> State -> State :=
  ltac:(setter State_eta _prevDragMovePoint).
Definition set_fingers : nat -> State -> State := ltac:(setter State_eta _fingers).
Definition set_firstMove : bool -> State -> State := ltac:(setter State_eta _firstMove).
Definition set_hasInteraction : bool -> State -> State := ltac:(setter State_eta _hasInteraction).
Definition set_inAnimation : bool -> State -> State := ltac:(setter State_eta _inAnimation).
Definition set_interaction : option Interaction -> State -> State :=
  ltac:(setter State_eta _interaction).
Definition set_isDoubleTap : bool -> State -> State := ltac:(setter State_eta _isDoubleTap).
Definition set_lastDragPosition : option Point -> State -> State :=
  ltac:(setter State_eta _lastDragPosition).
Definition set_lastScale : T -> State -> State := ltac:(setter State_eta _lastScale).
Definition set_lastTouchStart : Z -> State -> State := ltac:(setter State_eta _lastTouchStart).
Definition set_lastZoomCenter : option Point -> State -> State :=
  ltac:(setter State_eta _lastZoomCenter).
Definition set_nthZoom : nat -> State -> State := ltac:(setter State_eta _nthZoom).
Definition set_offset : Point -> State -> State := ltac:(setter State_eta _offset).
Definition set_startTouches : option (list Point) -> State -> State :=
  ltac:(setter State_eta _startTouches).
Definition set_updatePlaned : bool -> State -> State := ltac:(setter State_eta _updatePlaned).
Definition set_wheelTimeOut : option nat -> State -> State := ltac:(setter State_eta _wheelTimeOut).
Definition set_zoomFactor : T -> State -> State := ltac:(setter State_eta _zoomFactor).
Definition set_ignoreNextClick : bool -> State -> State := ltac:(setter State_eta _ignoreNextClick).
Definition set_effects : list Effect -> State -> State := ltac:(setter State_eta effects).
Definition set_frames : list FrameCallback -> State -> State := ltac:(setter State_eta frames).
Definition set_timers : list nat -> State -> State := ltac:(setter State_eta timers).
Definition set_nextTimer : nat -> State -> State := ltac:(setter State_eta nextTimer).
Definition set_now : Z -> State -> State := ltac:(setter State_eta now).

(** A method either returns or throws the [TypeError] of reading a property
    of [undefined]; both leave the instance in some state. *)
Inductive Outcome :=
| Done (st : State)
| TypeError (st : State).

Definition andThen (o : Outcome) (k : State -> Outcome) : Outcome :=
  match o with
  | Done st => k st
  | TypeError st => TypeError st
  end.

Definition stateOf (o : Outcome) : State :=
  match o with Done st => st | TypeError st => st end.

(** *** The host's services *)

Definition emit (e : Effect) (st : State) : State :=
  set_effects (effects st ++ [e]) st.

Definition requestAnimationFrame (cb : FrameCallback) (st : State) : State :=
  set_frames (frames st ++ [cb]) st.

(** [setTimeout]: a fresh handle, pending until it fires or is cleared. *)
Definition setTimeout (st : State) : nat * State :=
  let handle := nextTimer st in
  (handle, set_nextTimer (S handle) (set_timers (timers st ++ [handle]) st)).

Definition clearTimeout (handle : option nat) (st : State) : State :=
  match handle with
  | Some h => set_timers (remove Nat.eq_dec h (timers st)) st
  | None => st
  end.

(** *** Methods of the class *)

Variable props : Props.
Variable host : Host.

Definition _stopAnimation (st : State) : State := set_inAnimation false st.

Definition _resetInertia (st : State) : State :=
  set_prevDragMovePoint None (set_velocity None st).

Definition _addOffset (offset : Point) (st : State) : State :=
  set_offset {| x := x (_offset st) + x offset; y := y (_offset st) + y offset |} st.

Definition _getContainerRect : ClientRect := rect host.

Definition _getChildSize : ElementSize := child host.

Definition _getInitialZoomFactor (st : State) : T := _initialZoomFactor st.

Definition _sanitizeOffset (offset : Point) (st : State) : Point :=
  let rect := _getContainerRect in
  let elWidth := childWidth _getChildSize * _getInitialZoomFactor st * _zoomFactor st in
  let elHeight := childHeight _getChildSize * _getInitialZoomFactor st * _zoomFactor st in
  let maxX := elWidth - width rect + horizontalPadding props in
  let maxY := elHeight - height rect + verticalPadding props in
  let maxOffsetX := Math_max maxX 0 in
  let maxOffsetY := Math_max maxY 0 in
  let minOffsetX := Math_min maxX 0 - horizontalPadding props in
  let minOffsetY := Math_min maxY 0 - verticalPadding props in
  {| x := clamp minOffsetX maxOffsetX (x offset);
     y := clamp minOffsetY maxOffsetY (y offset) |}.

(** [updateFrame] of [_update]. *)
Definition updateFrame (st : State) : State :=
  let scale := _getInitialZoomFactor st * _zoomFactor st in
  let x := - x (_offset st) / scale in
  let y := - y (_offset st) / scale in
  emit (onUpdate scale x y) st.

(** [_update(options)]; [isAnimation] is false when there are no options. *)
Definition _update (isAnimation : bool) (st : State) : State :=
  if _updatePlaned st then st
  else if isAnimation then updateFrame st
  else requestAnimationFrame updateCallback (set_updatePlaned true st).

(** Returns the multiplier that was applied, with the new state. *)
Definition _scaleZoomFactor (scale : T) (st : State) : T * State :=
  let originalZoomFactor := _zoomFactor st in
  let st := set_zoomFactor (_zoomFactor st * scale) st in
  let st := set_zoomFactor (clamp (minZoom props) (maxZoom props) (_zoomFactor st)) st in
  (_zoomFactor st / originalZoomFactor, st).

Definition _scale (scale : T) (center : Point) (st : State) : State :=
  let (scale, st) := _scaleZoomFactor scale st in
  let st := _addOffset {| x := (scale - 1) * (x center + x (_offset st));
                          y := (scale - 1) * (y center + y (_offset st)) |} st in
  emit onZoomUpdate st.

Definition _scaleTo (zoomFactor : T) (center : Point) (st : State) : State :=
  _scale (zoomFactor / _zoomFactor st) center st.

Definition _canDrag (st : State) : bool :=
  draggableUnZoomed props || negb (isCloseTo (_zoomFactor st) 1).

Definition _drag (center : Point) (lastCenter : option Point) (st : State) : State :=
  match lastCenter with
  | Some lastCenter =>
      let dy := - (y center - y lastCenter) in
      let dx := - (x center - x lastCenter) in
      let st :=
        if negb (lockDragAxis props) then _addOffset {| x := dx; y := dy |} st
        else
          (* lock scroll to position that was changed the most *)
          if Math_abs dx >? Math_abs dy then _addOffset {| x := dx; y := 0 |} st
          else _addOffset {| y := dy; x := 0 |} st in
      emit onDragUpdate st
  | None => st
  end.

Definition _isInsaneOffset (st : State) : bool :=
  let offset := _offset st in
  let sanitizedOffset := _sanitizeOffset offset st in
  negb (x sanitizedOffset =? x offset) || negb (y sanitizedOffset =? y offset).

Definition noOptions : AnimateOptions := {| callback := None; duration := None |}.

(** [_animate(frameFn, options)]: the closure [renderFrame] is built and
    queued for the next frame. *)
Definition _animate (frameFn : FrameFn) (options : AnimateOptions) (st : State) : State :=
  let startTime := now st in
  let duration :=
    match duration options with
    | Some d => d
    | None => animationDuration props
    end in
  let renderFrame :=
    {| startTime := startTime; animCallback := callback options;
       animDuration := duration; frameFn := frameFn |} in
  let st := set_inAnimation true st in
  requestAnimationFrame (renderFrameCallback renderFrame) st.

Definition _getCurrentZoomCenter (st : State) : Point :=
  let offsetLeft := x (_offset st) - x (_initialOffset st) in
  let offsetTop := y (_offset st) - y (_initialOffset st) in
  {| x := - (1) * x (_offset st) - offsetLeft / (1 / _zoomFactor st - 1);
     y := - (1) * y (_offset st) - offsetTop / (1 / _zoomFactor st - 1) |}.

Definition _sanitizeOffsetAnimation (st : State) : State :=
  let targetOffset := _sanitizeOffset (_offset st) st in
  let startOffset := _offset st in
  _animate (sanitizeOffsetFrame startOffset targetOffset) noOptions st.

Definition _zoomOutAnimation (st : State) : State :=
  if _zoomFactor st =? 1 then st
  else
    let startZoomFactor := _zoomFactor st in
    let center := _getCurrentZoomCenter st in
    _animate (zoomOutFrame startZoomFactor center) noOptions st.

Definition _sanitize (st : State) : State :=
  if _zoomFactor st <? zoomOutFactor props then _zoomOutAnimation st
  else if _isInsaneOffset st then _sanitizeOffsetAnimation st
  else st.

Definition _end (st : State) : State :=
  let st := set_hasInteraction false st in
  let st := _sanitize st in
  _update false st.

Definition _realizeInertia (st : State) : State :=
  if negb (inertia props) then st
  else
    match _velocity st with
    | None => st
    | Some velocity =>
        if truthy (x velocity) || truthy (y velocity) then
          let st := _stopAnimation st in
          let st := _resetInertia st in
          _animate (inertiaFrame (inertiaFriction props) (x velocity) (y velocity))
            {| callback := None; duration := Some (ofZ 9999) |} st
        else st
    end.

Definition _getOffsetTouches (event : TouchEvent) : list Point :=
  let scrollTop :=
    if truthy (html_scrollTop host) then html_scrollTop host else body_scrollTop host in
  let scrollLeft :=
    if truthy (html_scrollLeft host) then html_scrollLeft host else body_scrollLeft host in
  let posTop := top _getContainerRect + scrollTop in
  let posLeft := left _getContainerRect + scrollLeft in
  map (fun p => {| x := x p - posLeft; y := y p - posTop |})
    (getPageCoordinatesByTouches (touches event)).

(** [touches[0]], which is [undefined] ([None]) for an event with no touch. *)
Definition _getOffsetByFirstTouch (event : TouchEvent) : option Point :=
  hd_error (_getOffsetTouches event).

(** With no touch, [currentCoordinates] is [undefined]: [calculateVelocity]
    throws on it, and [_prevDragMovePoint] receives it. *)
Definition _collectInertia (event : TouchEvent) (st : State) : Outcome :=
  if negb (inertia props) then Done st
  else
    let currentCoordinates := hd_error (getPageCoordinatesByTouches (touches event)) in
    match _prevDragMovePoint st, currentCoordinates with
    | Some prevPoint, Some current =>
        let st := set_velocity (Some (calculateVelocity current prevPoint)) st in
        Done (set_prevDragMovePoint currentCoordinates st)
    | Some _, None => TypeError st
    | None, _ => Done (set_prevDragMovePoint currentCoordinates st)
    end.

(** With no touch, [touch] is [undefined]: [_drag] reads [center.y] only
    under [if (lastCenter)], and throws there. *)
Definition _handleDrag (event : TouchEvent) (st : State) : Outcome :=
  match _getOffsetByFirstTouch event with
  | Some touch =>
      let st := _drag touch (_lastDragPosition st) st in
      let st := set_offset (_sanitizeOffset (_offset st) st) st in
      Done (set_lastDragPosition (Some touch) st)
  | None =>
      match _lastDragPosition st with
      | Some _ => TypeError st
      | None =>
          let st := set_offset (_sanitizeOffset (_offset st) st) st in
          Done (set_lastDragPosition None st)
      end
  end.

Definition _handleDragStart (event : TouchEvent) (st : State) : Outcome :=
  let st := set_ignoreNextClick true st in
  let st := emit onDragStart st in
  let st := _stopAnimation st in
  let st := _resetInertia st in
  let st := set_lastDragPosition None st in
  let st := set_hasInteraction true st in
  _handleDrag event st.

Definition _handleDragEnd (st : State) : State :=
  let st := emit onDragEnd st in
  let st := _end st in
  _realizeInertia st.

Definition _handleZoomStart (st : State) : State :=
  let st := emit onZoomStart st in
  let st := _stopAnimation st in
  let st := set_lastScale 1 st in
  let st := set_nthZoom 0 st in
  let st := set_lastZoomCenter None st in
  set_hasInteraction true st.

Definition _handleZoom (event : TouchEvent) (newScale : T) (st : State) : State :=
  let touchCenter := getVectorAvg (_getOffsetTouches event) in
  let scale := newScale / _lastScale st in
  let st := set_lastScale newScale st in
  (* The first touch events are thrown away since they are not precise *)
  let st := set_nthZoom (_nthZoom st + 1) st in
  let st :=
    if (3 <? _nthZoom st)%nat then
      let st := _scale scale touchCenter st in
      _drag touchCenter (_lastZoomCenter st) st
    else st in
  set_lastZoomCenter (Some touchCenter) st.

Definition _handleZoomEnd (st : State) : State :=
  let st := emit onZoomEnd st in
  _end st.

Definition _handleDoubleTap (event : TouchEvent) (st : State) : State :=
  if _hasInteraction st then st
  else
    let st := emit onDoubleTap st in
    let st := set_ignoreNextClick true st in
    let zoomFactor := _zoomFactor st + tapZoomFactor props in
    let startZoomFactor := _zoomFactor st in
    let center := _getOffsetByFirstTouch event in
    let st := set_isDoubleTap true st in
    let center :=
      if startZoomFactor >? zoomFactor then Some (_getCurrentZoomCenter st) else center in
    _animate (doubleTapFrame startZoomFactor zoomFactor center) noOptions st.

(** [interaction !== newInteraction]. *)
Definition sameInteraction (a b : option Interaction) : bool :=
  match a, b with
  | None, None => true
  | Some zoom, Some zoom => true
  | Some drag, Some drag => true
  | _, _ => false
  end.

Definition _setInteraction (newInteraction : option Interaction) (event : TouchEvent)
    (st : State) : Outcome :=
  let interaction := _interaction st in
  andThen
    (if negb (sameInteraction interaction newInteraction) then
       let st :=
         match interaction, newInteraction with
         | Some _, None =>
             if isZoomInteraction interaction then _handleZoomEnd st
             else if isDragInteraction interaction then _handleDragEnd st
             else st
         | _, _ => st
         end in
       if isZoomInteraction newInteraction then Done (_handleZoomStart st)
       else if isDragInteraction newInteraction then _handleDragStart event st
       else Done st
     else Done st)
    (fun st => Done (set_interaction newInteraction st)).

Definition _updateInteraction (event : TouchEvent) (st : State) : Outcome :=
  let fingers := _fingers st in
  if (fingers =? 2)%nat then _setInteraction (Some zoom) event st
  else if (fingers =? 1)%nat && _canDrag st then _setInteraction (Some drag) event st
  else _setInteraction None event st.

Definition _detectDoubleTap (event : TouchEvent) (st : State) : State :=
  let time := now st in
  let st := if (1 <? _fingers st)%nat then set_lastTouchStart 0%Z st else st in
  let st :=
    if (time - _lastTouchStart st <? 300)%Z then
      let st := emit cancelEvent st in
      let st := _handleDoubleTap event st in
      if isZoomInteraction (_interaction st) then _handleZoomEnd st
      else if isDragInteraction (_interaction st) then _handleDragEnd st
      else st
    else set_isDoubleTap false st in
  if (_fingers st =? 1)%nat then set_lastTouchStart time st else st.

Definition _handlerIfEnable (fn : State -> Outcome) (st : State) : Outcome :=
  if enabled props then fn st else Done st.

Definition _handlerOnTouchEnd (touchEndEvent : TouchEvent) : State -> Outcome :=
  _handlerIfEnable (fun st =>
    let st := set_fingers (length (touches touchEndEvent)) st in
    _updateInteraction touchEndEvent st).

Definition _handlerOnTouchStart (touchStartEvent : TouchEvent) : State -> Outcome :=
  _handlerIfEnable (fun st =>
    let st := set_firstMove true st in
    let st := set_fingers (length (touches touchStartEvent)) st in
    Done (_detectDoubleTap touchStartEvent st)).

Definition _handlerOnTouchMove (touchMoveEvent : TouchEvent) : State -> Outcome :=
  _handlerIfEnable (fun st =>
    if _isDoubleTap st then Done st
    else
      andThen (_collectInertia touchMoveEvent st) (fun st =>
      andThen
        (if _firstMove st then
           andThen (_updateInteraction touchMoveEvent st) (fun st =>
           let st :=
             match _interaction st with
             | Some _ => emit cancelEvent st
             | None => st
             end in
           Done (set_startTouches
                   (Some (getPageCoordinatesByTouches (touches touchMoveEvent))) st))
         else
           andThen
             (if isZoomInteraction (_interaction st) then
                match _startTouches st with
                | Some startTouches =>
                    if (length startTouches =? 2)%nat
                       && (length (touches touchMoveEvent) =? 2)%nat
                    then
                      match calculateScale startTouches
                              (getPageCoordinatesByTouches (touches touchMoveEvent)) with
                      | Some newScale => Done (_handleZoom touchMoveEvent newScale st)
                      | None => TypeError st
                      end
                    else Done st
                | None => Done st
                end
              else if isDragInteraction (_interaction st) then
                _handleDrag touchMoveEvent st
              else Done st)
             (fun st =>
                match _interaction st with
                | Some _ => Done (_update false (emit cancelEvent st))
                | None => Done st
                end))
        (fun st => Done (set_firstMove false st)))).

(** The wheel handler builds an event of one touch, so [center] is a point. *)
Definition _handlerWheel (wheelEvent : WheelEvent) (st : State) : Outcome :=
  if shouldInterceptWheelProp props wheelEvent then Done st
  else
    let st := emit cancelEvent st in
    let scaleDelta :=
      if isZoomGesture host wheelEvent || (deltaMode wheelEvent =? 1)%Z
      then ofZ 15 else 1 in
    let likeTouchEvent :=
      {| touches := [ {| pageX := wheelPageX wheelEvent;
                         pageY := wheelPageY wheelEvent |} ] |} in
    match _getOffsetByFirstTouch likeTouchEvent with
    | Some center =>
        let dScale := deltaY wheelEvent * scaleDelta in
        let st := _stopAnimation st in
        let st :=
          _scaleTo (_zoomFactor st - dScale / wheelScaleFactor props) center st in
        let st := _update false st in
        let st := clearTimeout (_wheelTimeOut st) st in
        let (handle, st) := setTimeout st in
        Done (set_wheelTimeOut (Some handle) st)
    | None => TypeError st
    end.

(** The timer of the wheel handler fires: [() => this._sanitize()]. *)
Definition wheelTimeout (handle : nat) (st : State) : State :=
  if existsb (Nat.eqb handle) (timers st) then
    _sanitize (set_timers (remove Nat.eq_dec handle (timers st)) st)
  else st.

(** [ScaleToOptions]: [animated] and [duration] may be left out. *)
Record ScaleToOptions := {
  optX : T;
  optY : T;
  optScale : T;
  optAnimated : option bool;
  optDuration : option T
}.

Definition scaleTo (options : ScaleToOptions) (st : State) : State :=
  let duration :=
    match optDuration options with Some d => d | None => ofZ 250 end in
  let animated :=
    match optAnimated options with Some a => a | None => true end in
  let startZoomFactor := _zoomFactor st in
  let startOffset := _offset st in
  let st := set_zoomFactor 1 st in
  let st := set_offset {| x := 0; y := 0 |} st in
  let st := _scaleTo (optScale options) {| x := optX options; y := optY options |} st in
  let st := _stopAnimation st in
  if negb animated then _update false st
  else
    let diffZoomFactor := _zoomFactor st - startZoomFactor in
    let diffOffset :=
      {| x := x (_offset st) - x startOffset; y := y (_offset st) - y startOffset |} in
    let st := set_zoomFactor startZoomFactor st in
    let st := set_offset startOffset st in
    _animate (scaleToFrame startZoomFactor diffZoomFactor startOffset diffOffset)
      {| callback := Some sanitizeCallback; duration := Some duration |} st.

(** *** Animation frames *)

(** A frame function called with [progress]: the closure after the call
    ([inertiaFrame] updates its velocity) and what the call did.  A double
    tap with no touch has [center] undefined: [_scale] throws on [center.x],
    after [_scaleZoomFactor]. *)
Definition runFrameFn (f : FrameFn) (progress : T) (st : State) : FrameFn * Outcome :=
  match f with
  | inertiaFrame inertiaFriction vx vy =>
      let vx := vx * inertiaFriction in
      let vy := vy * inertiaFriction in
      (inertiaFrame inertiaFriction vx vy,
       Done
         (if negb (truthy vx) && negb (truthy vy) then _stopAnimation st
          else
            let prevOffset := _offset st in
            let st := _addOffset {| x := vx; y := vy |} st in
            let st := set_offset (_sanitizeOffset (_offset st) st) st in
            if comparePoints prevOffset (_offset st) then _stopAnimation st
            else _update true st))
  | doubleTapFrame startZoomFactor zoomFactor center =>
      let target := startZoomFactor + progress * (zoomFactor - startZoomFactor) in
      (f,
       match center with
       | Some center => Done (_scaleTo target center st)
       | None => TypeError (snd (_scaleZoomFactor (target / _zoomFactor st) st))
       end)
  | scaleToFrame startZoomFactor diffZoomFactor startOffset diffOffset =>
      let px := x startOffset + x diffOffset * progress in
      let py := y startOffset + y diffOffset * progress in
      let st := set_zoomFactor (startZoomFactor + diffZoomFactor * progress) st in
      let st := set_offset {| x := px; y := py |} st in
      (f, Done (_update false st))
  | sanitizeOffsetFrame startOffset targetOffset =>
      let px := x startOffset + progress * (x targetOffset - x startOffset) in
      let py := y startOffset + progress * (y targetOffset - y startOffset) in
      let st := set_offset {| x := px; y := py |} st in
      (f, Done (_update false st))
  | zoomOutFrame startZoomFactor center =>
      let zoomFactor := 1 in
      let scaleFactor := startZoomFactor + progress * (zoomFactor - startZoomFactor) in
      (f, Done (_scaleTo scaleFactor center st))
  end.

Definition runCallback (c : option Callback) (st : State) : State :=
  match c with
  | Some sanitizeCallback => _sanitize st
  | None => st
  end.

(** The branch [frameTime >= duration] of [renderFrame]: the last frame. *)
Definition frameComplete (a : Animation) (st : State) : Outcome :=
  andThen (snd (runFrameFn (frameFn a) 1 st)) (fun st =>
  let st := _stopAnimation st in
  let st := runCallback (animCallback a) st in
  Done (_update false st)).

(** The other branch, at the eased [progress]. *)
Definition frameStep (a : Animation) (progress : T) (st : State) : Outcome :=
  let (f, o) := runFrameFn (frameFn a) progress st in
  andThen o (fun st =>
  let st := _update true st in
  let renderFrame :=
    {| startTime := startTime a; animCallback := animCallback a;
       animDuration := animDuration a; frameFn := f |} in
  Done (requestAnimationFrame (renderFrameCallback renderFrame) st)).

Context {TT : Trig T}.

Definition swing (p : T) : T := - Math_cos (p * Math_PI) / 2 + 1 / 2.

(** [renderFrame] of [_animate]. *)
Definition renderFrame (a : Animation) (st : State) : Outcome :=
  if negb (_inAnimation st) then Done st
  else
    let frameTime := (now st - startTime a)%Z in
    let progress := ofZ frameTime / animDuration a in
    if ofZ frameTime >=? animDuration a then frameComplete a st
    else frameStep a (swing progress) st.

Definition runFrameCallback (cb : FrameCallback) (st : State) : Outcome :=
  match cb with
  | updateCallback => Done (updateFrame (set_updatePlaned false st))
  | renderFrameCallback a => renderFrame a st
  end.

(** The display refreshes at [time]: the callbacks queued so far run in
    order, those they queue wait for the next frame, and an exception in one
    does not keep the others from running. *)
Definition animationFrame (time : Z) (st : State) : State :=
  let queued := frames st in
  let st := set_frames [] (set_now time st) in
  fold_left (fun st cb => stateOf (runFrameCallback cb st)) queued st.

(** *** The component in time *)

(** What the component reacts to: an event of its listeners, a call of the
    public [scaleTo], or the wheel timer firing. *)
Inductive Event :=
| touchstart (e : TouchEvent)
| touchmove (e : TouchEvent)
| touchend (e : TouchEvent)
| wheel (e : WheelEvent)
| scaleToCall (options : ScaleToOptions)
| timeout (handle : nat).

(** One event at [time], read by [new Date().getTime()].  An exception ends
    the handler and leaves the instance as it is then. *)
Definition dispatch (time : Z) (e : Event) (st : State) : State :=
  match e with
  | touchstart e => stateOf (_handlerOnTouchStart e (set_now time st))
  | touchmove e => stateOf (_handlerOnTouchMove e (set_now time st))
  | touchend e => stateOf (_handlerOnTouchEnd e (set_now time st))
  | wheel e => stateOf (_handlerWheel e (set_now time st))
  | scaleToCall options => scaleTo options (set_now time st)
  | timeout handle => wheelTimeout handle (set_now time st)
  end.

(** A sequence of timed events, with no refresh of the display between. *)
Definition runEvents (events : list (Z * Event)) (st : State) : State :=
  fold_left (fun st te => dispatch (fst te) (snd te) st) events st.

(** What happens to a mounted component: an event, or a refresh of the
    display. *)
Inductive Step :=
| event (e : Event)
| frame.

Definition step (time : Z) (s : Step) (st : State) : State :=
  match s with
  | event e => dispatch time e st
  | frame => animationFrame time st
  end.

(** The states a sequence of timed steps goes through, the first one first. *)
Fixpoint history (steps : list (Z * Step)) (st : State) : list State :=
  match steps with
  | [] => [st]
  | (time, s) :: steps => st :: history steps (step time s st)
  end.

Definition run (steps : list (Z * Step)) (st : State) : State :=
  fold_left (fun st ts => step (fst ts) (snd ts) st) steps st.

(** *** The words of the properties *)

(** The scale the host renders at. *)
Definition effectiveScale (st : State) : T :=
  _initialZoomFactor st * _zoomFactor st.

(** The point of the content shown at the container coordinate [center]:
    [(center + offset) / (initialZoomFactor * zoomFactor)]. *)
Definition contentPoint (center : Point) (st : State) : Point :=
  {| x := (x center + x (_offset st)) / effectiveScale st;
     y := (y center + y (_offset st)) / effectiveScale st |}.

(** The animation a method has started, going from [before] to [after]:
    the frame callback it has queued, if it is one. *)
Definition startedAnimation (before after : State) : option Animation :=
  match skipn (length (frames before)) (frames after) with
  | [renderFrameCallback a] => Some a
  | _ => None
  end.

(** [_sanitize], followed by the last frame of the animation it starts. *)
Definition settle (st : State) : State :=
  let settling := _sanitize st in
  match startedAnimation st settling with
  | Some a => stateOf (frameComplete a settling)
  | None => settling
  end.

(** The bounds of the offset as [_sanitizeOffset] computes them. *)
Definition elWidth (st : State) : T :=
  childWidth (child host) * _initialZoomFactor st * _zoomFactor st.

Definition elHeight (st : State) : T :=
  childHeight (child host) * _initialZoomFactor st * _zoomFactor st.

Definition maxOffsetX (st : State) : T :=
  Math_max (elWidth st - width (rect host) + horizontalPadding props) 0.

Definition minOffsetX (st : State) : T :=
  Math_min (elWidth st - width (rect host) + horizontalPadding props) 0
  - horizontalPadding props.

Definition maxOffsetY (st : State) : T :=
  Math_max (elHeight st - height (rect host) + verticalPadding props) 0.

Definition minOffsetY (st : State) : T :=
  Math_min (elHeight st - height (rect host) + verticalPadding props) 0
  - verticalPadding props.

(** The bounds as the specification words them:
    [maxX = max(elW - containerWidth + hPadding, 0)] and
    [minX = min(elW - containerWidth, 0) - hPadding], the same with the
    height and [vPadding]; and the clamping into them. *)
Definition spec_maxX (st : State) : T :=
  Math_max (elWidth st - width (rect host) + horizontalPadding props) 0.

Definition spec_minX (st : State) : T :=
  Math_min (elWidth st - width (rect host)) 0 - horizontalPadding props.

Definition spec_maxY (st : State) : T :=
  Math_max (elHeight st - height (rect host) + verticalPadding props) 0.

Definition spec_minY (st : State) : T :=
  Math_min (elHeight st - height (rect host)) 0 - verticalPadding props.

Definition spec_sanitizeOffset (offset : Point) (st : State) : Point :=
  {| x := clamp (spec_minX st) (spec_maxX st) (x offset);
     y := clamp (spec_minY st) (spec_maxY st) (y offset) |}.

(** The invariant of the zoom factor is stated for the zoom factors [good]
    and the frame functions [allowed] of a carrier.  Whether a frame
    function is the one of [scaleTo], which assigns the zoom factor without
    clamping it: *)
Definition isScaleToFrame (f : FrameFn) : bool :=
  match f with
  | scaleToFrame _ _ _ _ => true
  | _ => false
  end.

(** Whether an event is a call of [scaleTo] that starts an animation
    ([animated] is true when left out). *)
Definition animatedScaleTo (e : Event) : bool :=
  match e with
  | scaleToCall options =>
      match optAnimated options with Some a => a | None => true end
  | _ => false
  end.

Definition animatedStep (s : Step) : bool :=
  match s with
  | event e => animatedScaleTo e
  | frame => false
  end.

(** A queued frame callback runs a frame function that is [allowed]. *)
Definition callbackAllowed (allowed : FrameFn -> Prop)
    (cb : FrameCallback) : Prop :=
  match cb with
  | renderFrameCallback a => allowed (frameFn a)
  | updateCallback => True
  end.

(** An [onUpdate] reports the scale of a [good] zoom factor, for the
    initial zoom factor [izf]. *)
Definition updateReports (good : T -> Prop) (izf : T) (e : Effect) : Prop :=
  match e with
  | onUpdate scale _ _ => exists z, good z /\ scale = izf * z
  | _ => True
  end.

(** What holds of the instance whatever its zoom factor is at the moment. *)
Definition framesInvariant (good : T -> Prop) (allowed : FrameFn -> Prop)
    (izf : T) (st : State) : Prop :=
  Forall (callbackAllowed allowed) (frames st)
  /\ _initialZoomFactor st = izf
  /\ Forall (updateReports good izf) (effects st).

(** What holds of the instance between two events. *)
Definition zoomInvariant (good : T -> Prop) (allowed : FrameFn -> Prop)
    (izf : T) (st : State) : Prop :=
  good (_zoomFactor st) /\ framesInvariant good allowed izf st.

Definition outcomeInvariant (good : T -> Prop) (allowed : FrameFn -> Prop)
    (izf : T) (o : Outcome) : Prop :=
  zoomInvariant good allowed izf (stateOf o).

(** Props that differ from others in one field. *)
Definition Props_eta (p : Props) : Props :=
  Build_Props (animationDuration p) (draggableUnZoomed p) (enabled p) (inertia p)
    (inertiaFriction p) (horizontalPadding p) (lockDragAxis p) (maxZoom p) (minZoom p)
    (shouldInterceptWheelProp p) (tapZoomFactor p) (verticalPadding p)
    (wheelScaleFactor p) (zoomOutFactor p).

Definition withMinZoom : T -> Props -> Props := ltac:(setter Props_eta minZoom).
Definition withHorizontalPadding : T -> Props -> Props :=
  ltac:(setter Props_eta horizontalPadding).
Definition withVerticalPadding : T -> Props -> Props :=
  ltac:(setter Props_eta verticalPadding).
Definition withLockDragAxis : bool -> Props -> Props :=
  ltac:(setter Props_eta lockDragAxis).
Definition withEnabled : bool -> Props -> Props :=
  ltac:(setter Props_eta enabled).

(** Inputs with integer coordinates: a container of [w] by [h] at the
    origin of an unscrolled page, holding a child of [cw] by [ch]; a touch;
    an event of touches. *)
Definition hostOf (w h cw ch : Z) : Host :=
  {| rect := {| top := 0; left := 0; width := ofZ w; height := ofZ h |};
     child := {| childWidth := ofZ cw; childHeight := ofZ ch |};
     html_scrollTop := 0;
     html_scrollLeft := 0;
     body_scrollTop := 0;
     body_scrollLeft := 0;
     isMac := false |}.

Definition touchAt (p : Z * Z) : Touch :=
  {| pageX := ofZ (fst p); pageY := ofZ (snd p) |}.

Definition touchesAt (ps : list (Z * Z)) : TouchEvent :=
  {| touches := map touchAt ps |}.

Definition pointAt (p : Z * Z) : Point :=
  {| x := ofZ (fst p); y := ofZ (snd p) |}.

End PinchZoom.

(** [defaultProps], the literals [0.96], [0.5] and [1.3] as the quotients
    they are rounded from. *)
Definition defaultProps {T : Type} {NT : Number T} : Props :=
  {| animationDuration := ofZ 250;
     draggableUnZoomed := true;
     enabled := true;
     inertia := true;
     inertiaFriction := (ofZ 96 / ofZ 100)%js;
     horizontalPadding := 0%js;
     lockDragAxis := false;
     maxZoom := ofZ 5;
     minZoom := (1 / 2)%js;
     shouldInterceptWheelProp := shouldInterceptWheel;
     tapZoomFactor := 1%js;
     verticalPadding := 0%js;
     wheelScaleFactor := ofZ 1500;
     zoomOutFactor := (ofZ 13 / ofZ 10)%js |}.

(** *** Concrete inputs *)

(** Two fingers, 100 apart, put down, moved to the right together in steps
    of 10, 10, 10 and 50, and lifted. *)
Definition twoFingerPan {T : Type} {NT : Number T} : list (Z * Event (T := T)) :=
  [ (1000000%Z, touchstart (touchesAt [(100, 100); (200, 100)]%Z));
    (1000016%Z, touchmove (touchesAt [(100, 100); (200, 100)]%Z));
    (1000032%Z, touchmove (touchesAt [(110, 100); (210, 100)]%Z));
    (1000048%Z, touchmove (touchesAt [(120, 100); (220, 100)]%Z));
    (1000064%Z, touchmove (touchesAt [(130, 100); (230, 100)]%Z));
    (1000080%Z, touchmove (touchesAt [(180, 100); (280, 100)]%Z));
    (1000096%Z, touchend (touchesAt [])) ].

(** A component zoomed in twice and panned out of its bounds. *)
Definition zoomedPanned {T : Type} {NT : Number T} : State (T := T) :=
  set_offset (pointAt (-50, 1000)%Z) (set_zoomFactor (ofZ 2) initialState).

(** A wheel step of 120 up at the middle of the container, with or without
    the control key. *)
Definition wheelUp {T : Type} {NT : Number T} (ctrl : bool) : WheelEvent (T := T) :=
  {| ctrlKey := ctrl;
     metaKey := false;
     wheelPageX := ofZ 150;
     wheelPageY := ofZ 150;
     deltaY := (- ofZ 120)%js;
     deltaMode := 0 |}.

(** One finger put down and moved, a second finger put down and both
    moved, then the second finger lifted. *)
Definition dragThenPinch {T : Type} {NT : Number T} : list (Z * Event (T := T)) :=
  [ (1000000%Z, touchstart (touchesAt [(100, 100)]%Z));
    (1000016%Z, touchmove (touchesAt [(110, 100)]%Z));
    (1000500%Z, touchstart (touchesAt [(110, 100); (210, 100)]%Z));
    (1000516%Z, touchmove (touchesAt [(110, 100); (210, 100)]%Z)) ].

Definition liftSecondFinger {T : Type} {NT : Number T} : list (Z * Event (T := T)) :=
  [ (1000600%Z, touchend (touchesAt [(110, 100)]%Z)) ].

(** A tap: one finger put down at [p] at [time] and lifted 50 ms later. *)
Definition tapAt {T : Type} {NT : Number T} (time : Z) (p : Z * Z) :
    list (Z * Step (T := T)) :=
  [ (time, event (touchstart (touchesAt [p])));
    ((time + 50)%Z, event (touchend (touchesAt []))) ].

(** Two fingers put down on one point and held there. *)
Definition coincidentPinch {T : Type} {NT : Number T} : list (Z * Event (T := T)) :=
  [ (1000000%Z, touchstart (touchesAt [(150, 150); (150, 150)]%Z));
    (1000016%Z, touchmove (touchesAt [(150, 150); (150, 150)]%Z));
    (1000032%Z, touchmove (touchesAt [(150, 150); (150, 150)]%Z));
    (1000048%Z, touchmove (touchesAt [(150, 150); (150, 150)]%Z));
    (1000064%Z, touchmove (touchesAt [(150, 150); (150, 150)]%Z));
    (1000080%Z, touchmove (touchesAt [(150, 150); (150, 150)]%Z)) ].

(** Two fingers, 100 apart, closing to one point. *)
Definition closingPinch {T : Type} {NT : Number T} : list (Z * Event (T := T)) :=
  [ (1000000%Z, touchstart (touchesAt [(100, 100); (200, 100)]%Z));
    (1000016%Z, touchmove (touchesAt [(100, 100); (200, 100)]%Z));
    (1000032%Z, touchmove (touchesAt [(120, 100); (180, 100)]%Z));
    (1000048%Z, touchmove (touchesAt [(140, 100); (160, 100)]%Z));
    (1000064%Z, touchmove (touchesAt [(150, 100); (150, 100)]%Z));
    (1000080%Z, touchmove (touchesAt [(150, 100); (150, 100)]%Z)) ].

(** Two fingers put down on one point and spread to 100 apart. *)
Definition openingPinch {T : Type} {NT : Number T} : list (Z * Event (T := T)) :=
  [ (1000000%Z, touchstart (touchesAt [(5, 5); (5, 5)]%Z));
    (1000016%Z, touchmove (touchesAt [(5, 5); (5, 5)]%Z));
    (1000032%Z, touchmove (touchesAt [(0, 0); (100, 0)]%Z));
    (1000048%Z, touchmove (touchesAt [(0, 0); (100, 0)]%Z));
    (1000064%Z, touchmove (touchesAt [(0, 0); (100, 0)]%Z));
    (1000080%Z, touchmove (touchesAt [(0, 0); (100, 0)]%Z)) ].

(** A pinch under way: two fingers put down 100 apart, and their first
    move. *)
Definition pinching {T : Type} {NT : Number T} : State (T := T) :=
  runEvents defaultProps (hostOf 300 300 300 300)
    [ (1000000%Z, touchstart (touchesAt [(100, 100); (200, 100)]%Z));
      (1000016%Z, touchmove (touchesAt [(100, 100); (200, 100)]%Z)) ]
    initialState.

(** A component zoomed to 1.3 with the offset [(12.5, 7.3)]. *)
Definition zoomedOffset {T : Type} {NT : Number T} : State (T := T) :=
  set_offset {| x := (ofZ 125 / ofZ 10)%js; y := (ofZ 73 / ofZ 10)%js |}
    (set_zoomFactor (ofZ 13 / ofZ 10)%js initialState).

(** A component zoomed to 1.36 and panned to [(700.1, 0)]. *)
Definition zoomedAside {T : Type} {NT : Number T} : State (T := T) :=
  set_offset {| x := (ofZ 7001 / ofZ 10)%js; y := 0%js |}
    (set_zoomFactor (ofZ 136 / ofZ 100)%js initialState).

(** The default props with [minZoom] 0.1, a component zoomed to 4.3, and a
    call of [scaleTo] to the scale 0.1 at the middle of the container,
    animated. *)
Definition tenthMinZoom {T : Type} {NT : Number T} : Props (T := T) :=
  withMinZoom (ofZ 1 / ofZ 10)%js defaultProps.

Definition zoomedIn {T : Type} {NT : Number T} : State (T := T) :=
  set_zoomFactor (ofZ 43 / ofZ 10)%js initialState.

Definition scaleToTenth {T : Type} {NT : Number T} : ScaleToOptions (T := T) :=
  {| optX := ofZ 150;
     optY := ofZ 150;
     optScale := (ofZ 1 / ofZ 10)%js;
     optAnimated := None;
     optDuration := None |}.

(** *** At binary64 *)

(** The zoom factor is NaN, or lies between [minZoom] and [maxZoom]. *)
Definition inRangeOrNaN (props : Props (T := float)) (z : float) : Prop :=
  PrimFloat.is_nan z = true
  \/ (PrimFloat.leb (minZoom props) z = true
      /\ PrimFloat.leb z (maxZoom props) = true).

(** The frame functions other than the one of [scaleTo]. *)
Definition notScaleToFrame (f : FrameFn (T := float)) : Prop :=
  isScaleToFrame f = false.

(** *** At the real numbers *)

Local Open Scope R_scope.

(** The zoom factor lies between [minZoom] and [maxZoom]. *)
Definition inRange (props : Props) (z : R) : Prop :=
  minZoom props <= z <= maxZoom props.

(** The frame function of [scaleTo] interpolates between two zoom factors
    of the range. *)
Definition scaleToInRange (props : Props) (f : FrameFn) : Prop :=
  match f with
  | scaleToFrame startZoomFactor diffZoomFactor _ _ =>
      inRange props startZoomFactor
      /\ inRange props (startZoomFactor + diffZoomFactor)
  | _ => True
  end.

(** ** Properties *)

(** *** Comparisons of real numbers *)

Lemma Rltb_true a b : a < b -> Rltb a b = true.
Proof. unfold Rltb; destruct (Rlt_dec a b); tauto. Qed.

Lemma Rltb_false a b : ~ a < b -> Rltb a b = false.
Proof. unfold Rltb; destruct (Rlt_dec a b); tauto. Qed.

Lemma Rleb_true a b : a <= b -> Rleb a b = true.
Proof. unfold Rleb; destruct (Rle_dec a b); tauto. Qed.

Lemma Rleb_false a b : ~ a <= b -> Rleb a b = false.
Proof. unfold Rleb; destruct (Rle_dec a b); tauto. Qed.

Lemma Reqb_true a b : a = b -> Reqb a b = true.
Proof. unfold Reqb; destruct (Req_dec_T a b); tauto. Qed.

Lemma Reqb_false a b : a <> b -> Reqb a b = false.
Proof. unfold Reqb; destruct (Req_dec_T a b); tauto. Qed.

(** The operations of [Number] at [R], as the operations of [R]. *)
Ltac js :=
  cbn [ofZ add sub mul div opp Math_abs Math_max Math_min Math_sqrt ltb leb eqb
       RNumber Math_cos Math_PI RTrig] in *.

(** Comparisons of closed terms, decided by linear arithmetic. *)
Ltac decide_R :=
  repeat match goal with
  | |- context [Rltb ?a ?b] =>
      first [rewrite (Rltb_true a b) by lra | rewrite (Rltb_false a b) by lra]
  | |- context [Rleb ?a ?b] =>
      first [rewrite (Rleb_true a b) by lra | rewrite (Rleb_false a b) by lra]
  | |- context [Reqb ?a ?b] =>
      first [rewrite (Reqb_true a b) by lra | rewrite (Reqb_false a b) by lra]
  | |- context [Rmax ?a ?b] =>
      first [rewrite (Rmax_left a b) by lra | rewrite (Rmax_right a b) by lra]
  | |- context [Rmin ?a ?b] =>
      first [rewrite (Rmin_left a b) by lra | rewrite (Rmin_right a b) by lra]
  | |- context [Rabs ?a] =>
      first [rewrite (Rabs_right a) by lra | rewrite (Rabs_left a) by lra]
  end.

(** A run on concrete inputs: the model is unfolded down to the operations
    of [R], and each comparison met on the way is decided. *)
Ltac run_R :=
  repeat (
    cbv - [Rplus Rminus Rmult Rdiv Ropp Rinv Rabs Rmax Rmin sqrt cos PI IZR
           Rltb Rleb Reqb Rle Rlt Rge Rgt];
    progress decide_R);
  cbv - [Rplus Rminus Rmult Rdiv Ropp Rinv Rabs Rmax Rmin sqrt cos PI IZR
         Rltb Rleb Reqb Rle Rlt Rge Rgt].

(** *** Comparisons of binary64 numbers *)

Lemma SFcompare_antisym (a b : spec_float) :
  SFcompare b a = option_map CompOpp (SFcompare a b).
Proof.
  destruct a as [sa | sa | | sa ma ea], b as [sb | sb | | sb mb eb]; cbn;
    try reflexivity;
    try (destruct sa; reflexivity); try (destruct sb; reflexivity);
    try (destruct sa, sb; reflexivity).
  destruct sa, sb; try reflexivity.
  - rewrite (Z.compare_antisym ea eb).
    destruct (ea ?= eb)%Z eqn:E; cbn; try reflexivity.
    f_equal. change (Pos.compare_cont Eq mb ma) with (Pos.compare mb ma).
    rewrite (Pos.compare_antisym ma mb).
    unfold Pos.compare. now destruct (Pos.compare_cont Eq ma mb).
  - rewrite (Z.compare_antisym ea eb).
    destruct (ea ?= eb)%Z eqn:E; cbn; try reflexivity.
    f_equal. change (Pos.compare_cont Eq mb ma) with (Pos.compare mb ma).
    rewrite (Pos.compare_antisym ma mb).
    unfold Pos.compare. now destruct (Pos.compare_cont Eq ma mb).
Qed.

Lemma SFcompare_refl (a : spec_float) :
  SFcompare a a = None \/ SFcompare a a = Some Eq.
Proof.
  destruct a as [s | s | | s m e]; cbn; auto.
  - right. now destruct s.
  - right. destruct s; rewrite Z.compare_refl;
      change (Pos.compare_cont Eq m m) with (Pos.compare m m);
      rewrite Pos.compare_refl; reflexivity.
Qed.

Lemma SFcompare_nan (a b : spec_float) :
  SFcompare a b = None <-> SFcompare a a = None \/ SFcompare b b = None.
Proof.
  destruct a as [sa | sa | | sa ma ea], b as [sb | sb | | sb mb eb]; cbn;
    split; intros H; try discriminate; auto;
    destruct H as [H | H]; discriminate.
Qed.

Lemma float_is_nan_spec (a : float) :
  PrimFloat.is_nan a = true <-> SFcompare (Prim2SF a) (Prim2SF a) = None.
Proof.
  unfold PrimFloat.is_nan. rewrite eqb_spec. unfold SFeqb.
  destruct (SFcompare_refl (Prim2SF a)) as [E | E]; rewrite E; cbn; split;
    congruence.
Qed.

Lemma float_is_nan_false (a : float) :
  PrimFloat.is_nan a = false <-> SFcompare (Prim2SF a) (Prim2SF a) = Some Eq.
Proof.
  unfold PrimFloat.is_nan. rewrite eqb_spec. unfold SFeqb.
  destruct (SFcompare_refl (Prim2SF a)) as [E | E]; rewrite E; cbn; split;
    congruence.
Qed.

(** [a <= b] holds of numbers only. *)
Lemma float_leb_number (a b : float) :
  PrimFloat.leb a b = true ->
  PrimFloat.is_nan a = false /\ PrimFloat.is_nan b = false.
Proof.
  rewrite leb_spec. unfold SFleb. intros H.
  rewrite !float_is_nan_false.
  destruct (SFcompare_refl (Prim2SF a)) as [Ea | Ea],
           (SFcompare_refl (Prim2SF b)) as [Eb | Eb]; auto;
    assert (En : SFcompare (Prim2SF a) (Prim2SF b) = None)
      by (apply SFcompare_nan; auto);
    rewrite En in H; discriminate.
Qed.

Lemma float_ltb_number (a b : float) :
  PrimFloat.ltb a b = true ->
  PrimFloat.is_nan a = false /\ PrimFloat.is_nan b = false.
Proof.
  rewrite ltb_spec. unfold SFltb. intros H.
  rewrite !float_is_nan_false.
  destruct (SFcompare_refl (Prim2SF a)) as [Ea | Ea],
           (SFcompare_refl (Prim2SF b)) as [Eb | Eb]; auto;
    assert (En : SFcompare (Prim2SF a) (Prim2SF b) = None)
      by (apply SFcompare_nan; auto);
    rewrite En in H; discriminate.
Qed.

Lemma float_leb_refl (a : float) :
  PrimFloat.is_nan a = false -> PrimFloat.leb a a = true.
Proof.
  rewrite float_is_nan_false, leb_spec. unfold SFleb. now intros ->.
Qed.

(** The order of numbers is total: not [a < b] gives [b <= a]. *)
Lemma float_not_ltb (a b : float) :
  PrimFloat.is_nan a = false -> PrimFloat.is_nan b = false ->
  PrimFloat.ltb a b = false -> PrimFloat.leb b a = true.
Proof.
  rewrite !float_is_nan_false, ltb_spec, leb_spec. unfold SFltb, SFleb.
  intros Ha Hb. rewrite (SFcompare_antisym (Prim2SF a) (Prim2SF b)).
  destruct (SFcompare (Prim2SF a) (Prim2SF b)) as [[| |] |] eqn:E; cbn;
    try reflexivity; try discriminate.
  intros _. apply SFcompare_nan in E. destruct E; congruence.
Qed.

Lemma float_ltb_nan_l (a b : float) :
  PrimFloat.is_nan a = true -> PrimFloat.ltb a b = false.
Proof.
  intros Ha. destruct (PrimFloat.ltb a b) eqn:E; [| reflexivity].
  apply float_ltb_number in E. destruct E; congruence.
Qed.

Lemma float_ltb_nan_r (a b : float) :
  PrimFloat.is_nan b = true -> PrimFloat.ltb a b = false.
Proof.
  intros Hb. destruct (PrimFloat.ltb a b) eqn:E; [| reflexivity].
  apply float_ltb_number in E. destruct E; congruence.
Qed.

(** *** Clamping *)

Lemma clamp_range (lo hi v : R) : lo <= hi -> lo <= clamp lo hi v <= hi.
Proof.
  intros Hle. unfold clamp. js. unfold Rltb.
  destruct (Rlt_dec v lo), (Rlt_dec hi v); lra.
Qed.

Lemma clamp_fixed (lo hi v : R) : lo <= v <= hi -> clamp lo hi v = v.
Proof.
  intros Hv. unfold clamp. js. unfold Rltb.
  destruct (Rlt_dec v lo), (Rlt_dec hi v); lra.
Qed.

Lemma clamp_idempotent (lo hi v : R) :
  lo <= hi -> clamp lo hi (clamp lo hi v) = clamp lo hi v.
Proof. intros Hle. apply clamp_fixed, clamp_range, Hle. Qed.

(** [clamp] at binary64: a NaN goes through, a number comes out between the
    bounds. *)
Lemma clamp_float (lo hi v : float) :
  PrimFloat.leb lo hi = true ->
  if PrimFloat.is_nan v then PrimFloat.is_nan (clamp lo hi v) = true
  else PrimFloat.leb lo (clamp lo hi v) = true
       /\ PrimFloat.leb (clamp lo hi v) hi = true.
Proof.
  intros Hle. destruct (float_leb_number lo hi Hle) as [Hlo Hhi].
  cbv [clamp ltb FloatNumber].
  destruct (PrimFloat.is_nan v) eqn:Hv.
  - rewrite (float_ltb_nan_l v lo Hv), (float_ltb_nan_r hi v Hv). exact Hv.
  - destruct (PrimFloat.ltb v lo) eqn:E1.
    + split; [apply float_leb_refl, Hlo | exact Hle].
    + destruct (PrimFloat.ltb hi v) eqn:E2.
      * split; [exact Hle | apply float_leb_refl, Hhi].
      * split; apply float_not_ltb; assumption.
Qed.

Lemma clamp_inRangeOrNaN (props : Props (T := float)) (v : float) :
  PrimFloat.leb (minZoom props) (maxZoom props) = true ->
  inRangeOrNaN props (clamp (minZoom props) (maxZoom props) v).
Proof.
  intros Hle. pose proof (clamp_float _ _ v Hle) as H. unfold inRangeOrNaN.
  destruct (PrimFloat.is_nan v); [left | right]; exact H.
Qed.

(** *** The zoom factor stays in its range *)

(** The invariant, for any numbers: what it needs of the zoom factors
    [good] is that [clamp] yields one. *)

Section ZoomInvariant.

Context {T : Type} {NT : Number T} {TT : Trig T}.
Local Open Scope js_scope.

Variable props : Props (T := T).
Variable host : Host (T := T).
Variable izf : T.

(** The zoom factors the invariant allows, the frame functions that may be
    queued, the progress values a frame is called with, and whether
    [scaleTo] may start an animation. *)
Variable good : T -> Prop.
Variable allowed : FrameFn (T := T) -> Prop.
Variable eased : T -> Prop.
Variable animations : bool.

Hypothesis good_clamp :
  forall v, good (clamp (minZoom props) (maxZoom props) v).
Hypothesis allowed_other :
  forall f, isScaleToFrame f = false -> allowed f.
Hypothesis allowed_scaleTo :
  animations = true ->
  forall s z o d, good s -> good z -> allowed (scaleToFrame s (z - s) o d).
Hypothesis good_scaleToFrame :
  forall s d o od p,
    allowed (scaleToFrame s d o od) -> eased p -> good (s + d * p).
Hypothesis eased_one : eased 1.
Hypothesis eased_swing : forall p, eased (swing p).

(** An assignment to a field the invariants do not read. *)
Ltac field_update :=
  lazymatch goal with
  | |- ?I good allowed izf (?upd ?v ?st) =>
      lazymatch upd with
      | @set_velocity _ => idtac
      | @set_prevDragMovePoint _ => idtac
      | @set_fingers _ => idtac
      | @set_firstMove _ => idtac
      | @set_hasInteraction _ => idtac
      | @set_inAnimation _ => idtac
      | @set_interaction _ => idtac
      | @set_isDoubleTap _ => idtac
      | @set_lastDragPosition _ => idtac
      | @set_lastScale _ => idtac
      | @set_lastTouchStart _ => idtac
      | @set_lastZoomCenter _ => idtac
      | @set_nthZoom _ => idtac
      | @set_offset _ => idtac
      | @set_startTouches _ => idtac
      | @set_updatePlaned _ => idtac
      | @set_wheelTimeOut _ => idtac
      | @set_ignoreNextClick _ => idtac
      | @set_timers _ => idtac
      | @set_nextTimer _ => idtac
      | @set_now _ => idtac
      end;
      change (I good allowed izf st)
  end.

Ltac split_cases :=
  repeat match goal with
  | |- context [if ?c then _ else _] => destruct c eqn:?
  | |- context [match ?v with _ => _ end] => destruct v eqn:?
  end.

Create HintDb zoom.

#[local] Hint Extern 1 (zoomInvariant _ _ _ (_ _ _)) => field_update : zoom.
#[local] Hint Extern 1 (framesInvariant _ _ _ (_ _ _)) => field_update : zoom.
#[local] Hint Extern 0 (updateReports _ _ _) => exact I : zoom.
#[local] Hint Extern 0 (callbackAllowed _ _) =>
  first [exact I | apply allowed_other; reflexivity] : zoom.

Lemma frames_of_zoom st : zoomInvariant good allowed izf st -> framesInvariant good allowed izf st.
Proof. intros [_ H]. exact H. Qed.

Lemma frames_set_zoomFactor z st :
  framesInvariant good allowed izf st -> framesInvariant good allowed izf (set_zoomFactor z st).
Proof. exact (fun H => H). Qed.

Lemma zoom_set_zoomFactor z st :
  good z -> framesInvariant good allowed izf st ->
  zoomInvariant good allowed izf (set_zoomFactor z st).
Proof. intros Hz H. split; [exact Hz | exact H]. Qed.

Lemma frames_emit e st :
  updateReports good izf e -> framesInvariant good allowed izf st ->
  framesInvariant good allowed izf (emit e st).
Proof.
  intros He (Hf & Hi & Hu). repeat split; try assumption.
  cbn. apply Forall_app. split; [assumption | constructor; [assumption | constructor]].
Qed.

Lemma zoom_emit e st :
  updateReports good izf e -> zoomInvariant good allowed izf st ->
  zoomInvariant good allowed izf (emit e st).
Proof. intros He [Hz H]. split; [exact Hz | apply frames_emit; assumption]. Qed.

Lemma zoom_requestAnimationFrame cb st :
  callbackAllowed allowed cb -> zoomInvariant good allowed izf st ->
  zoomInvariant good allowed izf (requestAnimationFrame cb st).
Proof.
  intros Hc (Hz & Hf & Hi & Hu).
  split; [exact Hz |]. split; [| split; assumption].
  cbn. apply Forall_app. split; [assumption | constructor; [assumption | constructor]].
Qed.

#[local] Hint Resolve frames_of_zoom frames_set_zoomFactor zoom_set_zoomFactor
  frames_emit zoom_emit zoom_requestAnimationFrame : zoom.

Lemma zoom_setTimeout st :
  zoomInvariant good allowed izf st -> zoomInvariant good allowed izf (snd (setTimeout st)).
Proof. exact (fun H => H). Qed.

Lemma zoom_clearTimeout h st :
  zoomInvariant good allowed izf st -> zoomInvariant good allowed izf (clearTimeout h st).
Proof. destruct h; exact (fun H => H). Qed.

Lemma zoom_stopAnimation st :
  zoomInvariant good allowed izf st -> zoomInvariant good allowed izf (_stopAnimation st).
Proof. exact (fun H => H). Qed.

Lemma frames_stopAnimation st :
  framesInvariant good allowed izf st -> framesInvariant good allowed izf (_stopAnimation st).
Proof. exact (fun H => H). Qed.

Lemma zoom_resetInertia st :
  zoomInvariant good allowed izf st -> zoomInvariant good allowed izf (_resetInertia st).
Proof. exact (fun H => H). Qed.

Lemma zoom_addOffset o st :
  zoomInvariant good allowed izf st -> zoomInvariant good allowed izf (_addOffset o st).
Proof. exact (fun H => H). Qed.

Lemma zoom_updateFrame st :
  zoomInvariant good allowed izf st -> zoomInvariant good allowed izf (updateFrame st).
Proof.
  intros H. unfold updateFrame. cbv zeta. apply zoom_emit; [| exact H].
  destruct H as (Hz & _ & Hi & _). cbn. exists (_zoomFactor st).
  split; [exact Hz |]. unfold _getInitialZoomFactor. now rewrite Hi.
Qed.

#[local] Hint Resolve zoom_setTimeout zoom_clearTimeout zoom_stopAnimation
  frames_stopAnimation zoom_resetInertia zoom_addOffset zoom_updateFrame : zoom.

Lemma zoom_update isAnimation st :
  zoomInvariant good allowed izf st -> zoomInvariant good allowed izf (_update isAnimation st).
Proof. intros H. unfold _update. split_cases; auto with zoom. Qed.

(** After [_scaleZoomFactor] the zoom factor is in the range, whatever it
    was before and whatever the multiplier is. *)
Lemma zoom_scaleZoomFactor scale st :
  framesInvariant good allowed izf st ->
  zoomInvariant good allowed izf (snd (_scaleZoomFactor props scale st)).
Proof.
  intros H. unfold _scaleZoomFactor. cbn [snd]. apply zoom_set_zoomFactor.
  - apply good_clamp.
  - exact H.
Qed.

Lemma zoom_scale scale center st :
  framesInvariant good allowed izf st ->
  zoomInvariant good allowed izf (_scale props scale center st).
Proof.
  intros H. unfold _scale.
  pose proof (zoom_scaleZoomFactor scale st H) as Hs.
  destruct (_scaleZoomFactor props scale st) as [k st']. cbn [snd] in Hs.
  auto with zoom.
Qed.

Lemma zoom_scaleTo zoomFactor center st :
  framesInvariant good allowed izf st ->
  zoomInvariant good allowed izf (_scaleTo props zoomFactor center st).
Proof. intros H. unfold _scaleTo. apply zoom_scale, H. Qed.

#[local] Hint Resolve zoom_update zoom_scaleZoomFactor zoom_scale zoom_scaleTo : zoom.

Lemma zoom_drag center lastCenter st :
  zoomInvariant good allowed izf st ->
  zoomInvariant good allowed izf (_drag props center lastCenter st).
Proof. intros H. unfold _drag. cbv zeta. split_cases; auto with zoom. Qed.

Lemma zoom_animate f options st :
  callbackAllowed allowed
    (renderFrameCallback
       {| startTime := 0; animCallback := None; animDuration := 0; frameFn := f |}) ->
  zoomInvariant good allowed izf st ->
  zoomInvariant good allowed izf (_animate props f options st).
Proof.
  intros Hf H. unfold _animate. cbv zeta.
  apply zoom_requestAnimationFrame; [exact Hf | auto with zoom].
Qed.

#[local] Hint Resolve zoom_drag zoom_animate : zoom.

Lemma zoom_sanitize st :
  zoomInvariant good allowed izf st -> zoomInvariant good allowed izf (_sanitize props host st).
Proof.
  intros H. unfold _sanitize, _zoomOutAnimation, _sanitizeOffsetAnimation.
  cbv zeta. split_cases; auto with zoom.
Qed.

#[local] Hint Resolve zoom_sanitize : zoom.

Lemma zoom_end st :
  zoomInvariant good allowed izf st -> zoomInvariant good allowed izf (_end props host st).
Proof. intros H. unfold _end. cbv zeta. auto with zoom. Qed.

Lemma zoom_realizeInertia st :
  zoomInvariant good allowed izf st -> zoomInvariant good allowed izf (_realizeInertia props st).
Proof. intros H. unfold _realizeInertia. cbv zeta. split_cases; auto 7 with zoom. Qed.

#[local] Hint Resolve zoom_end zoom_realizeInertia : zoom.

Lemma zoom_handleDragEnd st :
  zoomInvariant good allowed izf st -> zoomInvariant good allowed izf (_handleDragEnd props host st).
Proof. intros H. unfold _handleDragEnd. cbv zeta. auto with zoom. Qed.

Lemma zoom_handleZoomStart st :
  zoomInvariant good allowed izf st -> zoomInvariant good allowed izf (_handleZoomStart st).
Proof. intros H. unfold _handleZoomStart. cbv zeta. auto 9 with zoom. Qed.

Lemma zoom_handleZoomEnd st :
  zoomInvariant good allowed izf st -> zoomInvariant good allowed izf (_handleZoomEnd props host st).
Proof. intros H. unfold _handleZoomEnd. cbv zeta. auto with zoom. Qed.

Lemma zoom_handleZoom event newScale st :
  zoomInvariant good allowed izf st ->
  zoomInvariant good allowed izf (_handleZoom props host event newScale st).
Proof. intros H. unfold _handleZoom. cbv zeta. split_cases; auto 9 with zoom. Qed.

Lemma zoom_handleDoubleTap event st :
  zoomInvariant good allowed izf st ->
  zoomInvariant good allowed izf (_handleDoubleTap props host event st).
Proof. intros H. unfold _handleDoubleTap. cbv zeta. split_cases; auto 9 with zoom. Qed.

#[local] Hint Resolve zoom_handleDragEnd zoom_handleZoomStart zoom_handleZoomEnd
  zoom_handleZoom zoom_handleDoubleTap : zoom.

(** Methods that may throw. *)

Lemma outcome_Done st :
  zoomInvariant good allowed izf st -> outcomeInvariant good allowed izf (Done st).
Proof. exact (fun H => H). Qed.

Lemma outcome_TypeError st :
  zoomInvariant good allowed izf st -> outcomeInvariant good allowed izf (TypeError st).
Proof. exact (fun H => H). Qed.

Lemma outcome_andThen o k :
  outcomeInvariant good allowed izf o ->
  (forall st, zoomInvariant good allowed izf st -> outcomeInvariant good allowed izf (k st)) ->
  outcomeInvariant good allowed izf (andThen o k).
Proof. intros Ho Hk. destruct o as [st | st]; [apply Hk, Ho | exact Ho]. Qed.

#[local] Hint Resolve outcome_Done outcome_TypeError : zoom.

Lemma zoom_collectInertia event st :
  zoomInvariant good allowed izf st ->
  outcomeInvariant good allowed izf (_collectInertia props event st).
Proof. intros H. unfold _collectInertia. cbv zeta. split_cases; auto with zoom. Qed.

Lemma zoom_handleDrag event st :
  zoomInvariant good allowed izf st ->
  outcomeInvariant good allowed izf (_handleDrag props host event st).
Proof. intros H. unfold _handleDrag. cbv zeta. split_cases; auto 7 with zoom. Qed.

#[local] Hint Resolve zoom_collectInertia zoom_handleDrag : zoom.

Lemma zoom_handleDragStart event st :
  zoomInvariant good allowed izf st ->
  outcomeInvariant good allowed izf (_handleDragStart props host event st).
Proof. intros H. unfold _handleDragStart. cbv zeta. auto 10 with zoom. Qed.

#[local] Hint Resolve zoom_handleDragStart : zoom.

Lemma zoom_setInteraction newInteraction event st :
  zoomInvariant good allowed izf st ->
  outcomeInvariant good allowed izf (_setInteraction props host newInteraction event st).
Proof.
  intros H. unfold _setInteraction. cbv zeta.
  apply outcome_andThen; [| intros; auto with zoom].
  split_cases; auto with zoom.
Qed.

#[local] Hint Resolve zoom_setInteraction : zoom.

Lemma zoom_updateInteraction event st :
  zoomInvariant good allowed izf st ->
  outcomeInvariant good allowed izf (_updateInteraction props host event st).
Proof. intros H. unfold _updateInteraction. cbv zeta. split_cases; auto with zoom. Qed.

Lemma zoom_detectDoubleTap event st :
  zoomInvariant good allowed izf st ->
  zoomInvariant good allowed izf (_detectDoubleTap props host event st).
Proof.
  intros H. unfold _detectDoubleTap. cbv zeta.
  split_cases; auto 9 with zoom.
Qed.

#[local] Hint Resolve zoom_updateInteraction zoom_detectDoubleTap : zoom.

Lemma zoom_handlerIfEnable fn st :
  (forall st, zoomInvariant good allowed izf st -> outcomeInvariant good allowed izf (fn st)) ->
  zoomInvariant good allowed izf st ->
  outcomeInvariant good allowed izf (_handlerIfEnable props fn st).
Proof. intros Hfn H. unfold _handlerIfEnable. destruct (enabled props); auto with zoom. Qed.

Lemma zoom_handlerOnTouchEnd event st :
  zoomInvariant good allowed izf st ->
  outcomeInvariant good allowed izf (_handlerOnTouchEnd props host event st).
Proof.
  intros H. unfold _handlerOnTouchEnd. apply zoom_handlerIfEnable; [| exact H].
  intros. cbv zeta. auto with zoom.
Qed.

Lemma zoom_handlerOnTouchStart event st :
  zoomInvariant good allowed izf st ->
  outcomeInvariant good allowed izf (_handlerOnTouchStart props host event st).
Proof.
  intros H. unfold _handlerOnTouchStart. apply zoom_handlerIfEnable; [| exact H].
  intros. cbv zeta. auto 7 with zoom.
Qed.

Lemma zoom_handlerOnTouchMove event st :
  zoomInvariant good allowed izf st ->
  outcomeInvariant good allowed izf (_handlerOnTouchMove props host event st).
Proof.
  intros H. unfold _handlerOnTouchMove. apply zoom_handlerIfEnable; [| exact H].
  clear st H. intros st H. destruct (_isDoubleTap st); [auto with zoom |].
  apply outcome_andThen; [auto with zoom |]. clear st H. intros st H.
  apply outcome_andThen; [| intros; auto with zoom].
  destruct (_firstMove st).
  - apply outcome_andThen; [auto with zoom |]. clear st H. intros st H.
    cbv zeta. split_cases; auto 7 with zoom.
  - apply outcome_andThen.
    + split_cases; auto with zoom.
    + clear st H. intros st H. split_cases; auto 7 with zoom.
Qed.

Lemma zoom_handlerWheel event st :
  zoomInvariant good allowed izf st ->
  outcomeInvariant good allowed izf (_handlerWheel props host event st).
Proof.
  intros H. unfold _handlerWheel. cbv zeta.
  destruct (shouldInterceptWheelProp props event); [auto with zoom |].
  destruct (_getOffsetByFirstTouch host _); [| auto with zoom].
  match goal with
  | |- context [setTimeout ?s] =>
      assert (Hs : zoomInvariant good allowed izf s) by auto 9 with zoom;
      pose proof (zoom_setTimeout s Hs) as Ht;
      destruct (setTimeout s) as [h s']
  end.
  cbn [snd] in Ht. auto with zoom.
Qed.

Lemma zoom_wheelTimeout handle st :
  zoomInvariant good allowed izf st ->
  zoomInvariant good allowed izf (wheelTimeout props host handle st).
Proof. intros H. unfold wheelTimeout. split_cases; auto with zoom. Qed.

Lemma zoom_scaleTo_animation (animated : bool) duration (s st : State) :
  (animated = true -> animations = true) ->
  zoomInvariant good allowed izf st -> zoomInvariant good allowed izf s ->
  zoomInvariant good allowed izf
    (if negb animated then _update false (_stopAnimation s)
     else
       _animate props
         (scaleToFrame (_zoomFactor st) (_zoomFactor (_stopAnimation s) - _zoomFactor st)
            (_offset st)
            {| x := x (_offset (_stopAnimation s)) - x (_offset st);
               y := y (_offset (_stopAnimation s)) - y (_offset st) |})
         {| callback := Some sanitizeCallback; duration := Some duration |}
         (set_offset (_offset st) (set_zoomFactor (_zoomFactor st) (_stopAnimation s)))).
Proof.
  intros Ha H Hs. destruct animated; cbn [negb]; [| auto with zoom].
  destruct H as [Hz _], Hs as [Hz' Hf]. apply zoom_animate.
  - cbn. apply allowed_scaleTo; [now apply Ha | exact Hz | exact Hz'].
  - auto with zoom.
Qed.

Lemma zoom_scaleToMethod options st :
  (animatedScaleTo (scaleToCall options) = true -> animations = true) ->
  zoomInvariant good allowed izf st ->
  zoomInvariant good allowed izf (scaleTo props options st).
Proof.
  intros Ha H. unfold scaleTo. cbv zeta.
  apply zoom_scaleTo_animation; [exact Ha | exact H |]. auto 9 with zoom.
Qed.

(** Animation frames. *)

Lemma zoom_runFrameFn f progress st :
  eased progress ->
  callbackAllowed allowed
    (renderFrameCallback
       {| startTime := 0; animCallback := None; animDuration := 0; frameFn := f |}) ->
  zoomInvariant good allowed izf st ->
  outcomeInvariant good allowed izf (snd (runFrameFn props host f progress st))
  /\ callbackAllowed allowed
       (renderFrameCallback
          {| startTime := 0; animCallback := None; animDuration := 0;
             frameFn := fst (runFrameFn props host f progress st) |}).
Proof.
  intros Hp Hf H. destruct f; cbn [runFrameFn fst snd]; cbv zeta.
  - split; [| apply allowed_other; reflexivity]. split_cases; auto 9 with zoom.
  - split; [| apply allowed_other; reflexivity]. split_cases; auto 9 with zoom.
  - split; [| exact Hf]. cbn in Hf.
    apply outcome_Done, zoom_update.
    change (zoomInvariant good allowed izf
              (set_zoomFactor (startZoomFactor + diffZoomFactor * progress) st)).
    apply zoom_set_zoomFactor; [| auto with zoom].
    apply (good_scaleToFrame _ _ _ _ _ Hf Hp).
  - split; [| apply allowed_other; reflexivity]. auto 9 with zoom.
  - split; [| apply allowed_other; reflexivity]. auto 9 with zoom.
Qed.

Lemma zoom_runCallback c st :
  zoomInvariant good allowed izf st -> zoomInvariant good allowed izf (runCallback props host c st).
Proof. intros H. unfold runCallback. split_cases; auto with zoom. Qed.

#[local] Hint Resolve zoom_runCallback : zoom.

Lemma zoom_frameComplete a st :
  callbackAllowed allowed (renderFrameCallback a) ->
  zoomInvariant good allowed izf st ->
  outcomeInvariant good allowed izf (frameComplete props host a st).
Proof.
  intros Ha H. unfold frameComplete.
  apply outcome_andThen; [| intros; cbv zeta; auto 9 with zoom].
  apply zoom_runFrameFn; [exact eased_one | exact Ha | exact H].
Qed.

Lemma zoom_frameStep a progress st :
  eased progress ->
  callbackAllowed allowed (renderFrameCallback a) ->
  zoomInvariant good allowed izf st ->
  outcomeInvariant good allowed izf (frameStep props host a progress st).
Proof.
  intros Hp Ha H. unfold frameStep.
  destruct (zoom_runFrameFn (frameFn a) progress st Hp Ha H) as [Ho Hf].
  destruct (runFrameFn props host (frameFn a) progress st) as [f o].
  cbn [fst snd] in Ho, Hf.
  apply outcome_andThen; [exact Ho |]. intros. cbv zeta.
  apply outcome_Done, zoom_requestAnimationFrame; [exact Hf | auto with zoom].
Qed.

Lemma zoom_renderFrame a st :
  callbackAllowed allowed (renderFrameCallback a) ->
  zoomInvariant good allowed izf st ->
  outcomeInvariant good allowed izf (renderFrame props host a st).
Proof.
  intros Ha H. unfold renderFrame. cbv zeta.
  destruct (negb (_inAnimation st)); [auto with zoom |].
  destruct (_ >=? _).
  - apply zoom_frameComplete; assumption.
  - apply zoom_frameStep; [apply eased_swing | assumption | assumption].
Qed.

Lemma zoom_runFrameCallback cb st :
  callbackAllowed allowed cb ->
  zoomInvariant good allowed izf st ->
  outcomeInvariant good allowed izf (runFrameCallback props host cb st).
Proof.
  intros Hcb H. destruct cb; cbn [runFrameCallback].
  - auto 7 with zoom.
  - apply zoom_renderFrame; assumption.
Qed.

Lemma zoom_animationFrame time st :
  zoomInvariant good allowed izf st ->
  zoomInvariant good allowed izf (animationFrame props host time st).
Proof.
  intros H. unfold animationFrame. cbv zeta.
  assert (Hq : Forall (callbackAllowed allowed) (frames st))
    by (destruct H as (_ & Hf & _); exact Hf).
  assert (H0 : zoomInvariant good allowed izf (set_frames [] (set_now time st))).
  { destruct H as (Hz & Hf & Hi & Hu).
    split; [exact Hz |]. split; [constructor | split; assumption]. }
  revert H0. generalize (set_frames [] (set_now time st)).
  induction Hq as [| cb queued Hcb _ IH]; intros s Hs; cbn [fold_left].
  - exact Hs.
  - apply IH. apply (zoom_runFrameCallback cb s Hcb Hs).
Qed.

Lemma zoom_dispatch time e st :
  (animatedScaleTo e = true -> animations = true) ->
  zoomInvariant good allowed izf st ->
  zoomInvariant good allowed izf (dispatch props host time e st).
Proof.
  intros Ha H.
  assert (Hn : zoomInvariant good allowed izf (set_now time st)) by exact H.
  destruct e; cbn [dispatch].
  - apply (zoom_handlerOnTouchStart e _ Hn).
  - apply (zoom_handlerOnTouchMove e _ Hn).
  - apply (zoom_handlerOnTouchEnd e _ Hn).
  - apply (zoom_handlerWheel e _ Hn).
  - apply zoom_scaleToMethod; [exact Ha | exact Hn].
  - apply zoom_wheelTimeout, Hn.
Qed.

Lemma zoom_step time s st :
  (animatedStep s = true -> animations = true) ->
  zoomInvariant good allowed izf st ->
  zoomInvariant good allowed izf (step props host time s st).
Proof.
  intros Ha H. destruct s; cbn [step].
  - apply zoom_dispatch; [exact Ha | exact H].
  - apply zoom_animationFrame, H.
Qed.

Lemma zoom_history steps :
  forall st,
    (existsb (fun ts => animatedStep (snd ts)) steps = true -> animations = true) ->
    zoomInvariant good allowed izf st ->
    Forall (zoomInvariant good allowed izf) (history props host steps st).
Proof.
  induction steps as [| [time s] steps IH]; intros st Ha H; cbn [history].
  - constructor; [exact H | constructor].
  - cbn [existsb snd] in Ha. constructor; [exact H |]. apply IH.
    + intros E. apply Ha. rewrite E. apply orb_true_r.
    + apply zoom_step; [| exact H]. intros E. apply Ha. now rewrite E.
Qed.

End ZoomInvariant.

(** In exact arithmetic the animation of [scaleTo] stays in the range as
    well: its frames interpolate between two zoom factors of the range, at
    a progress between 0 and 1. *)
Lemma zoom_range_exact (props : Props) (host : Host) (steps : list (Z * Step))
    (st : State) :
  minZoom props <= maxZoom props ->
  zoomInvariant (inRange props) (scaleToInRange props) (_initialZoomFactor st) st ->
  Forall
    (fun st' =>
       inRange props (_zoomFactor st')
       /\ Forall (updateReports (inRange props) (_initialZoomFactor st)) (effects st'))
    (history props host steps st).
Proof.
  intros Hle Hst.
  assert (H : Forall (zoomInvariant (inRange props) (scaleToInRange props)
                        (_initialZoomFactor st))
                (history props host steps st)).
  { apply (zoom_history props host (_initialZoomFactor st) (inRange props)
             (scaleToInRange props) (fun p => 0 <= p <= 1) true).
    - intros v. apply clamp_range, Hle.
    - intros f Hf. destruct f; try exact I. discriminate Hf.
    - intros _ s z o d Hs Hz. cbn. split; [exact Hs |]. js.
      replace (s + (z - s)) with z by ring. exact Hz.
    - intros s d o od p [[Hs1 Hs2] [Hd1 Hd2]] Hp. unfold inRange. js. split; nra.
    - js. lra.
    - intros p. unfold swing. js. pose proof (COS_bound (p * PI)) as [Hlo Hhi]. lra.
    - reflexivity.
    - exact Hst. }
  eapply Forall_impl; [| exact H].
  intros st' (Hz & _ & _ & Hu). split; assumption.
Qed.




(** *** Scaling around a point *)

(** With a positive [minZoom], a scale step cannot bring the effective scale
    to zero. *)
Lemma scale_keeps_effectiveScale (props : Props) (k : R) (center : Point) (st : State) :
  0 < minZoom props <= maxZoom props ->
  effectiveScale st <> 0 ->
  effectiveScale (_scale props k center st) <> 0.
Proof.
  intros [Hpos Hle] Hst. unfold effectiveScale, _scale, _scaleZoomFactor in *.
  cbn in *. js.
  pose proof (clamp_range (minZoom props) (maxZoom props) (_zoomFactor st * k) Hle).
  intros Hz. apply Rmult_integral in Hz. destruct Hz as [Hz | Hz].
  - apply Hst. rewrite Hz. ring.
  - lra.
Qed.

(** C5 (amended).  Scale-around-point fixpoint.  At binary64 as at any
    numbers, [_scale] applies the clamped multiplier
    [k' = clamp(zoomFactor * k) / zoomFactor] that [_scaleZoomFactor]
    returns and adds [(k' - 1) * (center + offset)] to the offset.  In exact
    arithmetic this keeps the content point under the container coordinate
    [center] where it is: for every state whose effective scale is nonzero
    before the call and nonzero after it, [(center + offset) /
    (initialZoomFactor * zoomFactor)] is the same before and after; and the
    effective scale is nonzero after the call when [0 < minZoom <= maxZoom].
    At binary64 the two quotients can differ by rounding. *)
Theorem scale_around_point_fixpoint :
  (forall (T : Type) (NT : Number T) (props : Props (T := T)) (k : T)
          (center : Point) (st : State),
     let z' := clamp (minZoom props) (maxZoom props) (_zoomFactor st * k)%js in
     let k' := (z' / _zoomFactor st)%js in
     fst (_scaleZoomFactor props k st) = k'
     /\ _zoomFactor (_scale props k center st) = z'
     /\ _initialZoomFactor (_scale props k center st) = _initialZoomFactor st
     /\ _offset (_scale props k center st)
        = {| x := (x (_offset st) + (k' - 1) * (x center + x (_offset st)))%js;
             y := (y (_offset st) + (k' - 1) * (y center + y (_offset st)))%js |})
  /\ (forall (props : Props (T := R)) (k : R) (center : Point) (st : State),
        effectiveScale st <> 0 ->
        (effectiveScale (_scale props k center st) <> 0 ->
         contentPoint center (_scale props k center st) = contentPoint center st)
        /\ (0 < minZoom props <= maxZoom props ->
            effectiveScale (_scale props k center st) <> 0)).
Proof.
  split.
  - intros T NT props k center st. cbv zeta. repeat split.
  - intros props k center st Hst. split.
    + revert Hst.
      unfold contentPoint, effectiveScale, _scale, _scaleZoomFactor. cbn. js.
      set (z' := clamp (minZoom props) (maxZoom props) (_zoomFactor st * k)).
      intros Hst Hst'.
      assert (Hi : _initialZoomFactor st <> 0) by (intros E; apply Hst; rewrite E; ring).
      assert (Hz : _zoomFactor st <> 0) by (intros E; apply Hst; rewrite E; ring).
      assert (Hz' : z' <> 0) by (intros E; apply Hst'; rewrite E; ring).
      f_equal; field; auto.
    + intros Hrange. apply scale_keeps_effectiveScale; assumption.
Qed.

Lemma scale_around_point_fixpoint_witness :
  _offset (_scale defaultProps (ofZ 3) (pointAt (10, 20)%Z) (initialState (T := float)))
  = {| x := 20%float; y := 40%float |}
  /\ contentPoint (pointAt (10, 20)%Z)
       (_scale defaultProps 3 (pointAt (10, 20)%Z) (initialState (T := R)))
     = contentPoint (pointAt (10, 20)%Z) initialState.
Proof.
  destruct scale_around_point_fixpoint as [Hstep Hfix]. split.
  - destruct (Hstep float _ defaultProps (ofZ 3) (pointAt (10, 20)%Z) initialState)
      as (_ & _ & _ & Ho).
    rewrite Ho. reflexivity.
  - assert (H1 : effectiveScale (T := R) initialState <> 0)
      by (unfold effectiveScale, initialState; cbn [_initialZoomFactor _zoomFactor];
          js; lra).
    destruct (Hfix defaultProps 3 (pointAt (10, 20)%Z) initialState H1) as [Heq Hne].
    apply Heq, Hne. unfold defaultProps; cbn [minZoom maxZoom]; js; lra.
Defined.

(** C5, as stated, fails at binary64.  With the default props, from the
    zoom factor 1.3 and the offset [(12.5, 7.3)], a scale step of
    multiplier 1.1 around [(150, 150)] moves the content point under the
    center from 125 to 124.99999999999999, the effective scale being
    nonzero before and after.  A multiplier NaN leaves the effective scale
    and the content point NaN.  And with [minZoom] 0, from the initial
    state, the multiplier 0 brings the effective scale to 0 and the content
    point to [0 / 0]. *)
Lemma scale_around_point_fixpoint_counterexample :
  (let center := pointAt (150, 150)%Z in
   let st := _scale defaultProps (ofZ 11 / ofZ 10)%js center (zoomedOffset (T := float)) in
   PrimFloat.eqb (effectiveScale (T := float) zoomedOffset) 0 = false
   /\ PrimFloat.eqb (effectiveScale st) 0 = false
   /\ x (contentPoint center zoomedOffset) = 125%float
   /\ x (contentPoint center st) = 0x1.f3fffffffffffp+6%float
   /\ PrimFloat.eqb (x (contentPoint center st)) (x (contentPoint center zoomedOffset))
      = false)
  /\ (let center := pointAt (150, 150)%Z in
      let st := _scale defaultProps nan center (zoomedOffset (T := float)) in
      PrimFloat.is_nan (effectiveScale st) = true
      /\ PrimFloat.is_nan (x (contentPoint center st)) = true)
  /\ (let props := withMinZoom 0%float defaultProps in
      let center := pointAt (10, 20)%Z in
      let st := _scale props 0%float center initialState in
      effectiveScale (T := float) initialState = 1%float
      /\ x (contentPoint center initialState) = 10%float
      /\ effectiveScale st = 0%float
      /\ PrimFloat.is_nan (x (contentPoint center st)) = true).
Proof. vm_compute. repeat split; reflexivity. Qed.

(** *** The bounds of the offset *)

Lemma offset_bounds_ordered (m pad : R) : 0 <= pad -> Rmin m 0 - pad <= Rmax m 0.
Proof.
  intros Hpad. pose proof (Rmin_r m 0). pose proof (Rmax_r m 0). lra.
Qed.

(** C7 (amended).  [_sanitizeOffset] clamps the x axis of the offset with
    [maxX = max(elW - containerWidth + hPadding, 0)] and
    [minX = min(elW - containerWidth + hPadding, 0) - hPadding], where
    [elW = contentWidth * initialZoomFactor * zoomFactor], and the y axis
    the same way with the heights and [vPadding].  With paddings that are
    not negative the result lies within these bounds, and with zero padding
    they are the bounds the specification words. *)
Theorem sanitizeOffset_bounds (props : Props) (host : Host) (offset : Point)
    (st : State) :
  let sanitized := _sanitizeOffset props host offset st in
  let elW := childWidth (child host) * _initialZoomFactor st * _zoomFactor st in
  let elH := childHeight (child host) * _initialZoomFactor st * _zoomFactor st in
  let hPadding := horizontalPadding props in
  let vPadding := verticalPadding props in
  let maxX := Rmax (elW - width (rect host) + hPadding) 0 in
  let minX := Rmin (elW - width (rect host) + hPadding) 0 - hPadding in
  let maxY := Rmax (elH - height (rect host) + vPadding) 0 in
  let minY := Rmin (elH - height (rect host) + vPadding) 0 - vPadding in
  x sanitized = clamp minX maxX (x offset)
  /\ y sanitized = clamp minY maxY (y offset)
  /\ (0 <= hPadding -> minX <= x sanitized <= maxX)
  /\ (0 <= vPadding -> minY <= y sanitized <= maxY)
  /\ (hPadding = 0 -> minX = spec_minX props host st /\ maxX = spec_maxX props host st)
  /\ (vPadding = 0 -> minY = spec_minY props host st /\ maxY = spec_maxY props host st).
Proof.
  cbv zeta.
  split; [reflexivity |]. split; [reflexivity |].
  split; [intros Hpad; apply clamp_range, offset_bounds_ordered, Hpad |].
  split; [intros Hpad; apply clamp_range, offset_bounds_ordered, Hpad |].
  split; intros Hpad; rewrite Hpad.
  - unfold spec_minX, spec_maxX, elWidth. js. rewrite Hpad, Rplus_0_r. split; reflexivity.
  - unfold spec_minY, spec_maxY, elHeight. js. rewrite Hpad, Rplus_0_r. split; reflexivity.
Qed.

Lemma sanitizeOffset_bounds_witness :
  -10 <= x (_sanitizeOffset (withHorizontalPadding 4 defaultProps)
              (hostOf 100 100 90 100) (pointAt (-12, 0)%Z) initialState) <= 0.
Proof.
  pose proof (sanitizeOffset_bounds (withHorizontalPadding 4 defaultProps)
                (hostOf 100 100 90 100) (pointAt (-12, 0)%Z) initialState) as H.
  cbv zeta in H. destruct H as (_ & _ & H & _).
  assert (Hpad : 0 <= horizontalPadding (withHorizontalPadding 4 defaultProps))
    by (cbn; lra).
  specialize (H Hpad). revert H. run_R. lra.
Defined.

(** C7, as stated, fails with a padding: a content of width 90 in a
    container of width 100, with [hPadding = 4] and both zoom factors 1, has
    [minX = min(90 - 100 + 4, 0) - 4 = -10] in the code and
    [min(90 - 100, 0) - 4 = -14] in the specification, so the offset -12 is
    moved to -10 by the code and left alone by the bounds of the
    specification. *)
Lemma sanitizeOffset_bounds_counterexample :
  let props := withHorizontalPadding 4 defaultProps in
  let host := hostOf 100 100 90 100 in
  let offset := pointAt (-12, 0)%Z in
  x (_sanitizeOffset props host offset initialState) = -10
  /\ x (spec_sanitizeOffset props host offset initialState) = -12
  /\ spec_minX props host initialState = -14.
Proof. cbv zeta. repeat split; run_R; lra. Qed.

(** *** Dragging *)

Lemma drag_step (props : Props) (center lastCenter : Point) (st : State) :
  _offset (_drag props center (Some lastCenter) st)
  = let dx := x center - x lastCenter in
    let dy := y center - y lastCenter in
    if negb (lockDragAxis props) then
      {| x := x (_offset st) + - dx; y := y (_offset st) + - dy |}
    else if Rltb (Rabs (- dy)) (Rabs (- dx)) then
      {| x := x (_offset st) + - dx; y := y (_offset st) + 0 |}
    else
      {| x := x (_offset st) + 0; y := y (_offset st) + - dy |}.
Proof.
  unfold _drag. cbv zeta. js.
  destruct (negb (lockDragAxis props)); [reflexivity |].
  destruct (Rltb _ _); reflexivity.
Qed.

(** C9.  Axis lock.  With [lockDragAxis], a drag step of screen delta
    [(10, 3)] changes the x component of the offset only, and one of delta
    [(3, 10)] the y component only; in general the axis of the smaller
    absolute delta is left unchanged, whatever the state the step starts
    from, so that the choice is made anew at each step. *)
Theorem drag_axis_lock (props : Props) (center lastCenter : Point) (st : State) :
  lockDragAxis props = true ->
  let dx := x center - x lastCenter in
  let dy := y center - y lastCenter in
  let moved := _offset (_drag props center (Some lastCenter) st) in
  (dx = 10 -> dy = 3 ->
     x moved = x (_offset st) - 10 /\ y moved - y (_offset st) = 0)
  /\ (dx = 3 -> dy = 10 ->
        x moved - x (_offset st) = 0 /\ y moved = y (_offset st) - 10)
  /\ (Rabs dy < Rabs dx ->
        x moved = x (_offset st) - dx /\ y moved - y (_offset st) = 0)
  /\ (Rabs dx < Rabs dy ->
        x moved - x (_offset st) = 0 /\ y moved = y (_offset st) - dy).
Proof.
  intros Hlock. cbv zeta. rewrite drag_step. cbv zeta. rewrite Hlock. cbn [negb].
  rewrite !Rabs_Ropp.
  assert (Hx : Rabs (y center - y lastCenter) < Rabs (x center - x lastCenter) ->
               Rltb (Rabs (y center - y lastCenter)) (Rabs (x center - x lastCenter))
               = true) by apply Rltb_true.
  assert (Hy : Rabs (x center - x lastCenter) < Rabs (y center - y lastCenter) ->
               Rltb (Rabs (y center - y lastCenter)) (Rabs (x center - x lastCenter))
               = false) by (intros; apply Rltb_false; lra).
  split; [| split; [| split]].
  - intros Hdx Hdy. rewrite Hx; [cbn; lra |].
    rewrite Hdx, Hdy, !Rabs_right; lra.
  - intros Hdx Hdy. rewrite Hy; [cbn; lra |].
    rewrite Hdx, Hdy, !Rabs_right; lra.
  - intros Hlt. rewrite Hx; [cbn; lra | exact Hlt].
  - intros Hlt. rewrite Hy; [cbn; lra | exact Hlt].
Qed.

Lemma drag_axis_lock_witness :
  let props := withLockDragAxis true defaultProps in
  let first := _drag props (pointAt (110, 103)%Z) (Some (pointAt (100, 100)%Z))
                 initialState in
  let second := _drag props (pointAt (113, 113)%Z) (Some (pointAt (110, 103)%Z))
                  first in
  (x (_offset first) = x (_offset initialState) - 10
   /\ y (_offset first) - y (_offset initialState) = 0)
  /\ (x (_offset second) - x (_offset first) = 0
      /\ y (_offset second) = y (_offset first) - 10).
Proof.
  cbv zeta. split.
  - apply (drag_axis_lock (withLockDragAxis true defaultProps) (pointAt (110, 103)%Z)
             (pointAt (100, 100)%Z) initialState eq_refl); cbn; lra.
  - apply (drag_axis_lock (withLockDragAxis true defaultProps) (pointAt (113, 113)%Z)
             (pointAt (110, 103)%Z)); [reflexivity | cbn; lra | cbn; lra].
Defined.

(** C10.  The first drag sample.  [_drag] with no previous point leaves the
    whole state as it is, offset and callbacks included: this is the call
    [_handleDragStart] makes, having reset [_lastDragPosition] to null, so
    that a drag start only sanitizes the offset and records the touch.  A
    sample with a previous point moves the offset against the delta and
    calls [onDragUpdate]. *)
Theorem drag_without_previous_point (props : Props) (host : Host) :
  (forall center st, _drag props center None st = st)
  /\ (forall event touch st,
        _getOffsetByFirstTouch host event = Some touch ->
        exists st',
          _handleDragStart props host event st = Done st'
          /\ _offset st' = _sanitizeOffset props host (_offset st) st
          /\ _zoomFactor st' = _zoomFactor st
          /\ effects st' = effects st ++ [onDragStart]
          /\ _lastDragPosition st' = Some touch)
  /\ (forall center lastCenter st,
        lockDragAxis props = false ->
        let st' := _drag props center (Some lastCenter) st in
        x (_offset st') = x (_offset st) - (x center - x lastCenter)
        /\ y (_offset st') = y (_offset st) - (y center - y lastCenter)
        /\ effects st' = effects st ++ [onDragUpdate]).
Proof.
  split; [reflexivity |]. split.
  - intros event touch st Htouch. unfold _handleDragStart, _handleDrag. cbv zeta.
    rewrite Htouch. eexists. split; [reflexivity |].
    repeat split.
  - intros center lastCenter st Hlock. cbv zeta.
    rewrite drag_step. cbv zeta. rewrite Hlock. cbn [negb x y].
    split; [lra |]. split; [lra |].
    unfold _drag. rewrite Hlock. reflexivity.
Qed.

Lemma drag_without_previous_point_witness :
  exists st',
    _handleDragStart defaultProps (hostOf 300 300 300 300) (touchesAt [(100, 100)%Z])
      initialState = Done st'
    /\ _offset st' = _sanitizeOffset defaultProps (hostOf 300 300 300 300)
                       (_offset initialState) initialState
    /\ _zoomFactor st' = _zoomFactor initialState
    /\ effects st' = effects initialState ++ [onDragStart]
    /\ _lastDragPosition st' = Some {| x := 100 - (0 + 0); y := 100 - (0 + 0) |}.
Proof.
  apply (proj1 (proj2 (drag_without_previous_point defaultProps (hostOf 300 300 300 300)))).
  unfold _getOffsetByFirstTouch, _getOffsetTouches. run_R. reflexivity.
Defined.

(** *** Settling *)

Section Settling.

Context {T : Type} {NT : Number T}.
Variable props : Props (T := T).
Variable host : Host (T := T).
Local Open Scope js_scope.

Lemma skipn_all_app {A : Type} (l l' : list A) : skipn (length l) (l ++ l') = l'.
Proof. induction l as [| a l IH]; [reflexivity | exact IH]. Qed.

Lemma startedAnimation_animate f options (st : State) :
  startedAnimation st (_animate props f options st)
  = Some {| startTime := now st;
            animCallback := callback options;
            animDuration := match duration options with
                            | Some d => d
                            | None => animationDuration props
                            end;
            frameFn := f |}.
Proof.
  unfold startedAnimation, _animate, requestAnimationFrame. cbn.
  rewrite skipn_all_app. reflexivity.
Qed.

Lemma startedAnimation_none (st : State (T := T)) : startedAnimation st st = None.
Proof.
  unfold startedAnimation.
  rewrite <- (app_nil_r (frames st)) at 2. rewrite skipn_all_app. reflexivity.
Qed.

(** [_update] leaves the transform as it is. *)
Lemma update_transform (isAnimation : bool) (st : State (T := T)) :
  _offset (_update isAnimation st) = _offset st
  /\ _zoomFactor (_update isAnimation st) = _zoomFactor st
  /\ _initialZoomFactor (_update isAnimation st) = _initialZoomFactor st.
Proof.
  unfold _update. destruct (_updatePlaned st), isAnimation; repeat split.
Qed.

Lemma sanitizeOffset_ext (offset : Point) (s s' : State) :
  _initialZoomFactor s = _initialZoomFactor s' ->
  _zoomFactor s = _zoomFactor s' ->
  _sanitizeOffset props host offset s = _sanitizeOffset props host offset s'.
Proof.
  intros Hi Hz. unfold _sanitizeOffset, _getInitialZoomFactor. now rewrite Hi, Hz.
Qed.

(** The last frame of an offset animation. *)
Lemma settle_sanitizeOffsetAnimation (st : State) :
  (_zoomFactor st <? zoomOutFactor props) = false ->
  _isInsaneOffset props host st = true ->
  let target := _sanitizeOffset props host (_offset st) st in
  _offset (settle props host st)
  = {| x := x (_offset st) + 1 * (x target - x (_offset st));
       y := y (_offset st) + 1 * (y target - y (_offset st)) |}
  /\ _zoomFactor (settle props host st) = _zoomFactor st
  /\ _initialZoomFactor (settle props host st) = _initialZoomFactor st.
Proof.
  intros Hz Hins. cbv zeta. unfold settle, _sanitize. rewrite Hz, Hins.
  unfold _sanitizeOffsetAnimation. cbv zeta. rewrite startedAnimation_animate.
  unfold frameComplete.
  cbn [frameFn runFrameFn snd andThen stateOf animCallback callback noOptions
       runCallback].
  cbv zeta.
  match goal with
  | |- _offset (_update false (_stopAnimation (_update false ?s))) = _ /\ _ =>
      destruct (update_transform false (_stopAnimation (_update false s)))
        as (Ho & Hz' & Hi');
      destruct (update_transform false s) as (Ho2 & Hz2 & Hi2);
      change (_offset (_stopAnimation (_update false s)))
        with (_offset (_update false s)) in Ho;
      change (_zoomFactor (_stopAnimation (_update false s)))
        with (_zoomFactor (_update false s)) in Hz';
      change (_initialZoomFactor (_stopAnimation (_update false s)))
        with (_initialZoomFactor (_update false s)) in Hi';
      rewrite Ho, Hz', Hi', Ho2, Hz2, Hi2
  end.
  repeat split.
Qed.

(** The last frame of a zoom-out animation. *)
Lemma settle_zoomOutAnimation (st : State) :
  (_zoomFactor st <? zoomOutFactor props) = true ->
  (_zoomFactor st =? 1) = false ->
  let z := _zoomFactor st in
  let z' := clamp (minZoom props) (maxZoom props) (z * ((z + 1 * (1 - z)) / z)) in
  let center := _getCurrentZoomCenter st in
  _zoomFactor (settle props host st) = z'
  /\ _offset (settle props host st)
     = {| x := x (_offset st) + (z' / z - 1) * (x center + x (_offset st));
          y := y (_offset st) + (z' / z - 1) * (y center + y (_offset st)) |}.
Proof.
  intros Hz H1. cbv zeta. unfold settle, _sanitize. rewrite Hz.
  unfold _zoomOutAnimation. rewrite H1. cbv zeta. rewrite startedAnimation_animate.
  unfold frameComplete.
  cbn [frameFn runFrameFn snd andThen stateOf animCallback callback noOptions
       runCallback].
  cbv zeta.
  match goal with
  | |- _zoomFactor (_update false ?s) = _ /\ _ =>
      destruct (update_transform false s) as (Ho & Hz' & _); rewrite Ho, Hz'
  end.
  split; reflexivity.
Qed.

End Settling.

Lemma sanitizeOffset_idempotent (props : Props) (host : Host) (offset : Point)
    (st : State) :
  0 <= horizontalPadding props -> 0 <= verticalPadding props ->
  _sanitizeOffset props host (_sanitizeOffset props host offset st) st
  = _sanitizeOffset props host offset st.
Proof.
  intros Hh Hv. unfold _sanitizeOffset. cbv zeta. cbn [x y]. js.
  f_equal; apply clamp_idempotent, offset_bounds_ordered; assumption.
Qed.

Lemma isInsaneOffset_false (props : Props (T := R)) (host : Host) (st : State) :
  _isInsaneOffset props host st = false ->
  _sanitizeOffset props host (_offset st) st = _offset st.
Proof.
  unfold _isInsaneOffset. cbv zeta. js. unfold Reqb.
  destruct (_sanitizeOffset props host (_offset st) st) as [sx sy] eqn:Hs.
  destruct (_offset st) as [ox oy]. cbn [x y].
  destruct (Req_dec_T sx ox), (Req_dec_T sy oy); cbn; try discriminate.
  intros _. congruence.
Qed.



(** In exact arithmetic, with paddings that are not negative: when the zoom
    factor is not below [zoomOutFactor], the offset after the last frame is
    a fixed point of [_sanitizeOffset]; when it is below and is neither 1
    nor 0, with 1 in [[minZoom, maxZoom]], the last frame of the zoom-out
    leaves the zoom factor at 1 and the offset at the initial offset. *)
Lemma settle_offset_exact (props : Props) (host : Host) (st : State) :
  0 <= horizontalPadding props -> 0 <= verticalPadding props ->
  let st' := settle props host st in
  (zoomOutFactor props <= _zoomFactor st ->
     _sanitizeOffset props host (_offset st') st' = _offset st')
  /\ (_zoomFactor st < zoomOutFactor props ->
      _zoomFactor st <> 1 -> _zoomFactor st <> 0 ->
      minZoom props <= 1 <= maxZoom props ->
      _zoomFactor st' = 1 /\ _offset st' = _initialOffset st).
Proof.
  intros Hh Hv. cbv zeta. split.
  - intros Hz.
    assert (Hlt : (_zoomFactor st <? zoomOutFactor props)%js = false)
      by (js; apply Rltb_false; lra).
    destruct (_isInsaneOffset props host st) eqn:Hins.
    + destruct (settle_sanitizeOffsetAnimation props host st Hlt Hins)
        as (Ho & Hz' & Hi').
      rewrite Ho, (sanitizeOffset_ext props host _ _ st Hi' Hz'). js.
      set (target := _sanitizeOffset props host (_offset st) st).
      replace (x (_offset st) + 1 * (x target - x (_offset st))) with (x target) by ring.
      replace (y (_offset st) + 1 * (y target - y (_offset st))) with (y target) by ring.
      replace {| x := x target; y := y target |} with target by (destruct target; reflexivity).
      apply sanitizeOffset_idempotent; assumption.
    + unfold settle, _sanitize. rewrite Hlt, Hins, startedAnimation_none.
      apply isInsaneOffset_false, Hins.
  - intros Hz H1 H0 Hrange.
    assert (Hlt : (_zoomFactor st <? zoomOutFactor props)%js = true)
      by (js; apply Rltb_true; lra).
    assert (Hne : (_zoomFactor st =? 1)%js = false)
      by (js; apply Reqb_false; exact H1).
    destruct (settle_zoomOutAnimation props host st Hlt Hne) as [Hz' Ho].
    rewrite Hz', Ho. unfold _getCurrentZoomCenter. cbn [x y]. js.
    replace (_zoomFactor st * ((_zoomFactor st + 1 * (1 - _zoomFactor st)) / _zoomFactor st))
      with 1 by (field; exact H0).
    rewrite clamp_fixed by exact Hrange.
    split; [reflexivity |].
    assert (Hd : 1 / _zoomFactor st - 1 <> 0).
    { intros E. apply H1. apply (Rmult_eq_reg_r (/ _zoomFactor st)).
      - rewrite Rinv_r by exact H0. lra.
      - apply Rinv_neq_0_compat, H0. }
    destruct (_initialOffset st) as [ix iy], (_offset st) as [ox oy]. cbn [x y].
    f_equal; field; repeat split; try assumption;
      intros E; first [apply H1; lra | apply H0; lra].
Qed.


(** *** The wheel *)

(** C2 (amended).  A wheel event is processed (the event cancelled, the
    scale applied at once, the pending settle timer cleared and a new one
    set, whose firing runs [_sanitize]) exactly when the predicate
    [shouldInterceptWheel] of the props returns false; when it returns true
    the handler returns at once and the instance is left as it is.  The
    default predicate is true unless ctrl or meta is held, so by default the
    component processes the wheel only with ctrl or meta held. *)
Theorem wheel_interception {T : Type} {NT : Number T} (props : Props (T := T))
    (host : Host) (wheelEvent : WheelEvent) (st : State) :
  (shouldInterceptWheelProp props wheelEvent = true ->
     _handlerWheel props host wheelEvent st = Done st)
  /\ (shouldInterceptWheelProp props wheelEvent = false ->
      exists st' handle,
        _handlerWheel props host wheelEvent st = Done st'
        /\ (exists later, effects st' = effects st ++ cancelEvent :: later)
        /\ (let scaleDelta :=
              if isZoomGesture host wheelEvent || (deltaMode wheelEvent =? 1)%Z
              then ofZ 15 else 1%js in
            let target :=
              (_zoomFactor st
               - deltaY wheelEvent * scaleDelta / wheelScaleFactor props)%js in
            _zoomFactor st'
            = clamp (minZoom props) (maxZoom props)
                (_zoomFactor st * (target / _zoomFactor st))%js)
        /\ _inAnimation st' = false
        /\ _wheelTimeOut st' = Some handle
        /\ handle = nextTimer st
        /\ In handle (timers st')
        /\ (forall previous,
              _wheelTimeOut st = Some previous -> previous <> handle ->
              ~ In previous (timers st'))
        /\ wheelTimeout props host handle st'
           = _sanitize props host
               (set_timers (remove Nat.eq_dec handle (timers st')) st'))
  /\ shouldInterceptWheel wheelEvent = negb (ctrlKey wheelEvent || metaKey wheelEvent).
Proof.
  split; [| split; [| reflexivity]].
  - intros Hp. unfold _handlerWheel. rewrite Hp. reflexivity.
  - intros Hp. unfold _handlerWheel. rewrite Hp. cbv zeta.
    cbn [_getOffsetByFirstTouch _getOffsetTouches touches getPageCoordinatesByTouches
         map hd_error].
    eexists. exists (nextTimer st). split; [reflexivity |].
    unfold _update, _scaleTo, _scale, _scaleZoomFactor. cbv zeta.
    cbn [fst snd]. unfold setTimeout, clearTimeout, emit, _addOffset, _stopAnimation.
    split; [| split; [| split; [| split; [| split; [| split; [| split]]]]]].
    + cbn; destruct (_updatePlaned st); cbn; try destruct (_wheelTimeOut st);
        cbn; rewrite <- app_assoc; eexists; reflexivity.
    + cbn; destruct (_updatePlaned st); cbn; try destruct (_wheelTimeOut st);
        cbn; reflexivity.
    + cbn; destruct (_updatePlaned st); cbn; try destruct (_wheelTimeOut st); reflexivity.
    + cbn; destruct (_updatePlaned st); cbn; try destruct (_wheelTimeOut st); reflexivity.
    + cbn; destruct (_updatePlaned st); cbn; try destruct (_wheelTimeOut st); reflexivity.
    + cbn; destruct (_updatePlaned st); cbn; try destruct (_wheelTimeOut st);
        cbn; apply in_or_app; right; left; reflexivity.
    + intros previous Hprev Hneq.
      cbn; destruct (_updatePlaned st); cbn; rewrite Hprev; cbn;
        intros Hin; apply in_app_or in Hin;
        (destruct Hin as [Hin | [Hin | []]];
         [ apply in_remove in Hin; destruct Hin as [_ Hin]; apply Hin; reflexivity
         | apply Hneq; symmetry; exact Hin ]).
    + unfold wheelTimeout.
      cbn; destruct (_updatePlaned st); cbn; try destruct (_wheelTimeOut st);
        cbn; rewrite existsb_app; cbn [existsb]; rewrite Nat.eqb_refl, orb_true_r;
        reflexivity.
Qed.

Lemma wheel_interception_witness :
  _handlerWheel defaultProps (hostOf 300 300 300 300) (wheelUp false)
    (initialState (T := float))
  = Done initialState
  /\ exists st' handle,
       _handlerWheel defaultProps (hostOf 300 300 300 300) (wheelUp true)
         (initialState (T := float))
       = Done st'
       /\ _wheelTimeOut st' = Some handle
       /\ In handle (timers st').
Proof.
  pose proof (wheel_interception defaultProps (hostOf 300 300 300 300) (wheelUp false)
                (initialState (T := float))) as (Hskip & _ & _).
  pose proof (wheel_interception defaultProps (hostOf 300 300 300 300) (wheelUp true)
                (initialState (T := float))) as (_ & Hrun & _).
  split; [exact (Hskip eq_refl) |].
  destruct (Hrun eq_refl) as (st' & handle & Hdone & _ & _ & _ & Htimer & _ & Hin & _).
  exists st', handle. split; [exact Hdone | split; [exact Htimer | exact Hin]].
Defined.

(** C2, as stated, fails with the default props: for a wheel event with
    neither ctrl nor meta the predicate says to intercept, and the handler
    returns with the instance untouched (no cancelled event, no scale, no
    timer); for an event with ctrl held the predicate says not to intercept,
    and the handler cancels the event, zooms from 1 to [1 + 120 / 1500] and
    sets the timer. *)
Lemma wheel_interception_counterexample :
  let host := hostOf 300 300 300 300 in
  let processed := stateOf (_handlerWheel defaultProps host (wheelUp true) initialState) in
  shouldInterceptWheelProp (T := float) defaultProps (wheelUp false) = true
  /\ _handlerWheel defaultProps host (wheelUp false) initialState = Done initialState
  /\ shouldInterceptWheelProp (T := float) defaultProps (wheelUp true) = false
  /\ effects processed = [cancelEvent; onZoomUpdate]
  /\ _zoomFactor processed = (1 + 120 / 1500)%float
  /\ timers processed = [0%nat].
Proof. vm_compute. repeat split; reflexivity. Qed.

(** *** The interaction state machine *)

Lemma effects_update {T : Type} {NT : Number T} (isAnimation : bool)
    (st : State (T := T)) :
  isAnimation = false -> effects (_update isAnimation st) = effects st.
Proof. intros ->. unfold _update. destruct (_updatePlaned st); reflexivity. Qed.

Lemma effects_sanitize {T : Type} {NT : Number T} (props : Props (T := T))
    (host : Host) (st : State) :
  effects (_sanitize props host st) = effects st.
Proof.
  unfold _sanitize, _zoomOutAnimation, _sanitizeOffsetAnimation.
  destruct (_ <? _)%js; [destruct (_ =? _)%js; reflexivity |].
  destruct (_isInsaneOffset props host st); reflexivity.
Qed.

Lemma effects_end {T : Type} {NT : Number T} (props : Props (T := T))
    (host : Host) (st : State) :
  effects (_end props host st) = effects st.
Proof.
  unfold _end. cbv zeta. rewrite effects_update by reflexivity.
  rewrite effects_sanitize. reflexivity.
Qed.

Lemma effects_realizeInertia {T : Type} {NT : Number T} (props : Props (T := T))
    (st : State) :
  effects (_realizeInertia props st) = effects st.
Proof.
  unfold _realizeInertia.
  destruct (negb (inertia props)); [reflexivity |].
  destruct (_velocity st) as [v |]; [| reflexivity].
  destruct (truthy (x v) || truthy (y v)); reflexivity.
Qed.

Lemma effects_handleDragEnd {T : Type} {NT : Number T} (props : Props (T := T))
    (host : Host) (st : State) :
  effects (_handleDragEnd props host st) = effects st ++ [onDragEnd].
Proof.
  unfold _handleDragEnd. cbv zeta.
  rewrite effects_realizeInertia, effects_end. reflexivity.
Qed.

Lemma effects_handleZoomEnd {T : Type} {NT : Number T} (props : Props (T := T))
    (host : Host) (st : State) :
  effects (_handleZoomEnd props host st) = effects st ++ [onZoomEnd].
Proof. unfold _handleZoomEnd. cbv zeta. rewrite effects_end. reflexivity. Qed.

Lemma effects_handleDragStart {T : Type} {NT : Number T} (props : Props (T := T))
    (host : Host) event (st : State) :
  exists st',
    _handleDragStart props host event st = Done st'
    /\ effects st' = effects st ++ [onDragStart].
Proof.
  unfold _handleDragStart, _handleDrag. cbv zeta.
  destruct (_getOffsetByFirstTouch host event); eexists; split; reflexivity.
Qed.

(** C3 (amended).  The end handler of a state runs when the state machine
    goes from that state to none: [_handleDragEnd] (which calls [onDragEnd],
    settles and releases the inertia) out of drag, [_handleZoomEnd] out of
    zoom.  On a direct transition from drag to zoom, or from zoom to drag,
    no end handler runs: only the start handler of the new state does, so
    that the callbacks made are [onZoomStart] alone, and [onDragStart]
    alone. *)
Theorem interaction_transitions {T : Type} {NT : Number T} (props : Props (T := T))
    (host : Host) (event : TouchEvent) (st : State) :
  (_interaction st = Some drag ->
     _setInteraction props host None event st
     = Done (set_interaction None (_handleDragEnd props host st))
     /\ effects (_handleDragEnd props host st) = effects st ++ [onDragEnd])
  /\ (_interaction st = Some zoom ->
        _setInteraction props host None event st
        = Done (set_interaction None (_handleZoomEnd props host st))
        /\ effects (_handleZoomEnd props host st) = effects st ++ [onZoomEnd])
  /\ (_interaction st = Some drag ->
        _setInteraction props host (Some zoom) event st
        = Done (set_interaction (Some zoom) (_handleZoomStart st))
        /\ effects (_handleZoomStart st) = effects st ++ [onZoomStart])
  /\ (_interaction st = Some zoom ->
        exists st',
          _handleDragStart props host event st = Done st'
          /\ _setInteraction props host (Some drag) event st
             = Done (set_interaction (Some drag) st')
          /\ effects st' = effects st ++ [onDragStart]).
Proof.
  split; [| split; [| split]]; intros Hi.
  - split; [| apply effects_handleDragEnd].
    unfold _setInteraction. rewrite Hi. reflexivity.
  - split; [| apply effects_handleZoomEnd].
    unfold _setInteraction. rewrite Hi. reflexivity.
  - split; [| reflexivity].
    unfold _setInteraction. rewrite Hi. reflexivity.
  - destruct (effects_handleDragStart props host event st) as (st' & Hs & He).
    exists st'. split; [exact Hs |]. split; [| exact He].
    unfold _setInteraction. rewrite Hi. cbn. rewrite Hs. reflexivity.
Qed.

Lemma interaction_transitions_witness :
  let st := set_interaction (Some drag) (initialState (T := float)) in
  _setInteraction defaultProps (hostOf 300 300 300 300) None (touchesAt []) st
  = Done (set_interaction None (_handleDragEnd defaultProps (hostOf 300 300 300 300) st))
  /\ effects (_handleDragEnd defaultProps (hostOf 300 300 300 300) st)
     = effects st ++ [onDragEnd].
Proof.
  destruct (interaction_transitions defaultProps (hostOf 300 300 300 300) (touchesAt [])
              (set_interaction (Some drag) (initialState (T := float)))) as (H & _).
  exact (H eq_refl).
Defined.

(** C3, as stated, fails from the initial state with the default props:
    a finger is put down and moved (drag starts), a second finger is put
    down and both move, and the state machine goes from drag to zoom with
    no call of [onDragEnd]; the second finger is lifted, and it goes from
    zoom to drag with no call of [onZoomEnd]. *)
Lemma interaction_transitions_counterexample :
  let host := hostOf 300 300 300 300 in
  let pinching := runEvents defaultProps host dragThenPinch (initialState (T := float)) in
  let dragging := runEvents defaultProps host liftSecondFinger pinching in
  _interaction pinching = Some zoom
  /\ effects pinching = [onDragStart; cancelEvent; onZoomStart; cancelEvent]
  /\ _interaction dragging = Some drag
  /\ effects dragging
     = [onDragStart; cancelEvent; onZoomStart; cancelEvent; onDragStart].
Proof. vm_compute. repeat split; reflexivity. Qed.

(** *** The double tap *)

(** Comparisons of times, decided from the hypotheses. *)
Ltac decide_Z :=
  repeat match goal with
  | |- context [(?a <? ?b)%Z] =>
      first [ replace (a <? b)%Z with true by (symmetry; apply Z.ltb_lt; lia)
            | replace (a <? b)%Z with false by (symmetry; apply Z.ltb_ge; lia) ]
  | |- context [Rleb (IZR ?a) (IZR ?b)] =>
      first [ rewrite (Rleb_true (IZR a) (IZR b)) by (apply IZR_le; lia)
            | rewrite (Rleb_false (IZR a) (IZR b))
                by (apply Rlt_not_le, IZR_lt; lia) ]
  end.

Ltac run_RZ :=
  repeat (
    cbv - [Rplus Rminus Rmult Rdiv Ropp Rinv Rabs Rmax Rmin sqrt cos PI IZR
           Rltb Rleb Reqb Rle Rlt Rge Rgt Z.sub Z.add Z.ltb Z.leb Z.le Z.lt];
    progress (decide_R; decide_Z));
  cbv - [Rplus Rminus Rmult Rdiv Ropp Rinv Rabs Rmax Rmin sqrt cos PI IZR
         Rltb Rleb Reqb Rle Rlt Rge Rgt Z.sub Z.add Z.ltb Z.leb Z.le Z.lt].

(** The innermost step of a run, from a state that is known, evaluated. *)
Ltac eval_step :=
  match goal with
  | |- context [step ?p ?h ?t ?s ?st] =>
      lazymatch st with
      | context [step] => fail
      | _ => idtac
      end;
      let x := fresh "x" in
      let E := fresh "E" in
      evar (x : State (T := R));
      assert (E : step p h t s st = x) by (run_RZ; unfold x; reflexivity);
      rewrite E; unfold x; clear E x
  end.



(** The same at binary64, whatever the cosine of the easing: the taps and
    frames of the run below leave the zoom factor at 2, then at 3. *)
Lemma double_tap_zoom_binary64 (TT : Trig float) :
  let host := hostOf 300 300 300 300 in
  let p := (100, 100)%Z in
  let zoomed :=
    run defaultProps host
      (tapAt 1000000 p ++ tapAt 1000100 p ++ [(1000360%Z, frame)])
      (initialState (T := float)) in
  let tappedAgain := run defaultProps host (tapAt 1000380 p) zoomed in
  let zoomedAgain := step defaultProps host 1000640%Z frame tappedAgain in
  _zoomFactor zoomed = 2%float
  /\ frames tappedAgain
     = [updateCallback;
        renderFrameCallback
          {| startTime := 1000380; animCallback := None; animDuration := 250%float;
             frameFn := doubleTapFrame 2%float 3%float
                          (Some {| x := 100%float; y := 100%float |}) |}]
  /\ _zoomFactor zoomedAgain = 3%float.
Proof. vm_compute. repeat split; reflexivity. Qed.


(** *** The pinch step *)

Section PinchGuard.

Context {T : Type} {NT : Number T}.
Variable props : Props (T := T).
Variable host : Host (T := T).

(** With a touch on the surface [_collectInertia] returns, and writes the
    velocity fields only. *)
Lemma collectInertia_touch (event : TouchEvent) (st : State) :
  touches event <> [] ->
  exists velocity prev,
    _collectInertia props event st
    = Done (set_prevDragMovePoint prev (set_velocity velocity st)).
Proof.
  intros Hne. unfold _collectInertia.
  destruct (negb (inertia props)).
  - exists (_velocity st), (_prevDragMovePoint st). destruct st; reflexivity.
  - destruct (touches event) as [| t ts]; [contradiction |]. cbn.
    destruct (_prevDragMovePoint st).
    + eexists. eexists. reflexivity.
    + exists (_velocity st). eexists. destruct st; reflexivity.
Qed.

Lemma interaction_handleZoom (event : TouchEvent) (newScale : T) (st : State) :
  _interaction (_handleZoom props host event newScale st) = _interaction st.
Proof.
  unfold _handleZoom. cbv zeta. destruct (3 <? _)%nat; [| reflexivity].
  unfold _drag. cbn. destruct (_lastZoomCenter st); [| reflexivity].
  destruct (negb (lockDragAxis props)); [reflexivity |].
  destruct (_ <? _)%js; reflexivity.
Qed.

End PinchGuard.

(** C8 (amended).  The pinch step.  The scale of a pinch is not guarded
    against a start distance of 0: [calculateScale] returns the quotient of
    the end distance by the start distance as it is, and the touch move
    passes it to [_handleZoom].  The guard on the number of touches is
    there: in a touch move of a zoom interaction (the component enabled, no
    double tap, not the first move, at least one touch), unless there are
    exactly two start touches and exactly two touches in the event the
    handler returns with the offset, the zoom factor, the last scale, the
    count of zoom steps and the last zoom center as they were; with two and
    two it runs [_handleZoom] with that quotient. *)
Theorem pinch_touch_guard {T : Type} {NT : Number T} (props : Props (T := T))
    (host : Host) (event : TouchEvent) (st : State) :
  enabled props = true ->
  _isDoubleTap st = false ->
  _firstMove st = false ->
  _interaction st = Some zoom ->
  touches event <> [] ->
  (forall s0 s1 e0 e1 : Point,
     calculateScale [s0; s1] [e0; e1]
     = Some (getDistance e0 e1 / getDistance s0 s1)%js)
  /\ (match _startTouches st with
      | Some startTouches =>
          (length startTouches =? 2)%nat && (length (touches event) =? 2)%nat
      | None => false
      end = false ->
      exists st',
        _handlerOnTouchMove props host event st = Done st'
        /\ _offset st' = _offset st
        /\ _zoomFactor st' = _zoomFactor st
        /\ _lastScale st' = _lastScale st
        /\ _nthZoom st' = _nthZoom st
        /\ _lastZoomCenter st' = _lastZoomCenter st)
  /\ (forall s0 s1 t0 t1,
        _startTouches st = Some [s0; s1] ->
        touches event = [t0; t1] ->
        exists collected,
          _collectInertia props event st = Done collected
          /\ _handlerOnTouchMove props host event st
             = Done
                 (set_firstMove false
                    (_update false
                       (emit cancelEvent
                          (_handleZoom props host event
                             (getDistance (getPointByPageCoordinates t0)
                                (getPointByPageCoordinates t1)
                              / getDistance s0 s1)%js
                             collected))))).
Proof.
  intros Hen Hdt Hfm Hint Hne.
  split; [reflexivity |].
  destruct (collectInertia_touch props event st Hne) as (velocity & prev & Hc).
  split.
  - intros Hguard. unfold _handlerOnTouchMove, _handlerIfEnable.
    rewrite Hen, Hdt, Hc. cbn [andThen]. cbn [_firstMove set_prevDragMovePoint set_velocity].
    rewrite Hfm. cbn [_interaction set_prevDragMovePoint set_velocity].
    rewrite Hint. cbn [isZoomInteraction _startTouches set_prevDragMovePoint set_velocity].
    destruct (_startTouches st) as [startTouches |].
    + rewrite Hguard. cbn. rewrite Hint.
      eexists. split; [reflexivity |].
      unfold _update. cbn. destruct (_updatePlaned st); repeat split.
    + cbn. rewrite Hint.
      eexists. split; [reflexivity |].
      unfold _update. cbn. destruct (_updatePlaned st); repeat split.
  - intros s0 s1 t0 t1 Hs Ht.
    eexists. split; [exact Hc |].
    unfold _handlerOnTouchMove, _handlerIfEnable.
    rewrite Hen, Hdt, Hc. cbn [andThen]. cbn [_firstMove set_prevDragMovePoint set_velocity].
    rewrite Hfm. cbn [_interaction set_prevDragMovePoint set_velocity].
    rewrite Hint. cbn [isZoomInteraction _startTouches set_prevDragMovePoint set_velocity].
    rewrite Hs, Ht. cbn [length Nat.eqb andb getPageCoordinatesByTouches map calculateScale andThen].
    rewrite (interaction_handleZoom props host). cbn [_interaction set_prevDragMovePoint set_velocity].
    rewrite Hint. reflexivity.
Qed.

Lemma pinch_touch_guard_witness :
  exists st',
    _handlerOnTouchMove defaultProps (hostOf 300 300 300 300)
      (touchesAt [(150, 100)%Z]) (pinching (T := float)) = Done st'
    /\ _offset st' = _offset (pinching (T := float))
    /\ _zoomFactor st' = _zoomFactor (pinching (T := float))
    /\ _lastScale st' = _lastScale (pinching (T := float))
    /\ _nthZoom st' = _nthZoom (pinching (T := float))
    /\ _lastZoomCenter st' = _lastZoomCenter (pinching (T := float)).
Proof.
  refine (proj1 (proj2 (pinch_touch_guard defaultProps (hostOf 300 300 300 300)
           (touchesAt [(150, 100)%Z]) (pinching (T := float)) _ _ _ _ _)) _).
  - vm_compute; reflexivity.
  - vm_compute; reflexivity.
  - vm_compute; reflexivity.
  - vm_compute; reflexivity.
  - discriminate.
  - vm_compute; reflexivity.
Defined.

(** C8, as stated, fails at binary64 with the default props: for two
    start touches on one point the scale is infinite when the fingers have
    spread, and NaN when they have not.  From the initial state, two
    fingers put down on one point and spread to 100 apart leave, after the
    fourth zoom step, the last scale infinite and the zoom factor and the
    offset NaN: no step was skipped, and none took the scale for 1. *)
Lemma pinch_touch_guard_counterexample :
  let host := hostOf 300 300 300 300 in
  let st := runEvents defaultProps host openingPinch (initialState (T := float)) in
  calculateScale [pointAt (5, 5)%Z; pointAt (5, 5)%Z]
    [pointAt (0, 0)%Z; pointAt (100, 0)%Z] = Some infinity
  /\ (exists scale,
        calculateScale [pointAt (5, 5)%Z; pointAt (5, 5)%Z]
          [pointAt (7, 7)%Z; pointAt (7, 7)%Z] = Some scale
        /\ PrimFloat.is_nan scale = true)
  /\ _nthZoom st = 4%nat
  /\ _lastScale st = infinity
  /\ PrimFloat.is_nan (_zoomFactor st) = true
  /\ PrimFloat.is_nan (x (_offset st)) = true.
Proof.
  cbv zeta. split; [vm_compute; reflexivity |].
  split; [eexists; split; vm_compute; reflexivity |].
  vm_compute. repeat split; reflexivity.
Qed.

(** ** Further properties *)

(** *** Clamping at binary64 *)

Lemma float_leb_not_ltb (a b : float) :
  PrimFloat.leb a b = true -> PrimFloat.ltb b a = false.
Proof.
  rewrite leb_spec, ltb_spec. unfold SFleb, SFltb.
  rewrite (SFcompare_antisym (Prim2SF a) (Prim2SF b)).
  destruct (SFcompare (Prim2SF a) (Prim2SF b)) as [[| |] |]; cbn;
    try reflexivity; discriminate.
Qed.

(** A number between the bounds is its own [clamp]. *)
Lemma clamp_float_fixed (lo hi r : float) :
  PrimFloat.leb lo r = true -> PrimFloat.leb r hi = true -> clamp lo hi r = r.
Proof.
  intros H1 H2. cbv [clamp ltb FloatNumber].
  now rewrite (float_leb_not_ltb lo r H1), (float_leb_not_ltb r hi H2).
Qed.

Lemma clamp_float_nan (lo hi v : float) :
  PrimFloat.is_nan v = true -> clamp lo hi v = v.
Proof.
  intros Hv. cbv [clamp ltb FloatNumber].
  now rewrite (float_ltb_nan_l v lo Hv), (float_ltb_nan_r hi v Hv).
Qed.

Lemma clamp_float_idempotent (lo hi v : float) :
  PrimFloat.leb lo hi = true ->
  clamp lo hi (clamp lo hi v) = clamp lo hi v.
Proof.
  intros Hle. pose proof (clamp_float lo hi v Hle) as H.
  destruct (PrimFloat.is_nan v) eqn:Hv.
  - rewrite (clamp_float_nan lo hi v Hv). apply clamp_float_nan, Hv.
  - destruct H as [H1 H2]. apply clamp_float_fixed; assumption.
Qed.

(** X1.  [clamp] at binary64, with ordered bounds: a NaN is returned as it
    is, whatever the bounds; a value between the bounds is returned as it
    is; and clamping twice is clamping once, for every value, NaN and the
    infinities included. *)
Theorem clamp_binary64 (lo hi v : float) :
  PrimFloat.leb lo hi = true ->
  (PrimFloat.is_nan v = true -> clamp lo hi v = v)
  /\ (PrimFloat.leb lo v = true -> PrimFloat.leb v hi = true -> clamp lo hi v = v)
  /\ clamp lo hi (clamp lo hi v) = clamp lo hi v.
Proof.
  intros Hle. split; [apply clamp_float_nan |].
  split; [apply clamp_float_fixed | apply clamp_float_idempotent, Hle].
Qed.

Lemma clamp_binary64_witness :
  clamp (minZoom defaultProps) (maxZoom defaultProps)
    (clamp (minZoom defaultProps) (maxZoom defaultProps) infinity)
  = clamp (minZoom defaultProps) (maxZoom defaultProps) infinity.
Proof.
  destruct (clamp_binary64 (minZoom defaultProps) (maxZoom defaultProps) infinity)
    as (_ & _ & H); [reflexivity | exact H].
Defined.

(** X2.  [_sanitizeOffset] at binary64: on each axis whose bounds are
    ordered, a NaN offset stays NaN and any other offset comes out between
    the bounds. *)
Theorem sanitizeOffset_binary64_bounds (props : Props (T := float)) (host : Host)
    (offset : Point) (st : State) :
  let sanitized := _sanitizeOffset props host offset st in
  (PrimFloat.leb (minOffsetX props host st) (maxOffsetX props host st) = true ->
   if PrimFloat.is_nan (x offset) then PrimFloat.is_nan (x sanitized) = true
   else PrimFloat.leb (minOffsetX props host st) (x sanitized) = true
        /\ PrimFloat.leb (x sanitized) (maxOffsetX props host st) = true)
  /\ (PrimFloat.leb (minOffsetY props host st) (maxOffsetY props host st) = true ->
      if PrimFloat.is_nan (y offset) then PrimFloat.is_nan (y sanitized) = true
      else PrimFloat.leb (minOffsetY props host st) (y sanitized) = true
           /\ PrimFloat.leb (y sanitized) (maxOffsetY props host st) = true).
Proof.
  cbv zeta. split; intros Hle; apply (clamp_float _ _ _ Hle).
Qed.

Lemma sanitizeOffset_binary64_bounds_witness :
  let host := hostOf 300 300 300 300 in
  let sanitized :=
    _sanitizeOffset defaultProps host (_offset (zoomedPanned (T := float))) zoomedPanned in
  PrimFloat.leb (minOffsetX defaultProps host zoomedPanned) (x sanitized) = true
  /\ PrimFloat.leb (x sanitized) (maxOffsetX defaultProps host zoomedPanned) = true.
Proof.
  destruct (sanitizeOffset_binary64_bounds defaultProps (hostOf 300 300 300 300)
              (_offset (zoomedPanned (T := float))) zoomedPanned) as [H _].
  exact (H eq_refl).
Defined.

(** *** The handlers *)

(** X3.  A disabled component ignores touches: the three touch handlers
    return with the instance as it is. *)
Theorem handlers_disabled {T : Type} {NT : Number T} (props : Props (T := T))
    (host : Host) (event : TouchEvent) (st : State) :
  enabled props = false ->
  _handlerOnTouchStart props host event st = Done st
  /\ _handlerOnTouchMove props host event st = Done st
  /\ _handlerOnTouchEnd props host event st = Done st.
Proof.
  intros H. unfold _handlerOnTouchStart, _handlerOnTouchMove, _handlerOnTouchEnd,
    _handlerIfEnable. rewrite H. repeat split.
Qed.

Lemma handlers_disabled_witness :
  let props := withEnabled false (defaultProps (T := float)) in
  let host := hostOf 300 300 300 300 in
  let event := touchesAt [(100, 100)%Z] in
  _handlerOnTouchStart props host event initialState = Done initialState
  /\ _handlerOnTouchMove props host event initialState = Done initialState
  /\ _handlerOnTouchEnd props host event initialState = Done initialState.
Proof.
  exact (handlers_disabled (withEnabled false (defaultProps (T := float)))
           (hostOf 300 300 300 300) (touchesAt [(100, 100)%Z]) initialState eq_refl).
Defined.

(** X4.  The first three zoom steps of a pinch are thrown away: they record
    the scale and the center, and leave the transform and the callbacks as
    they are. *)
Theorem handleZoom_first_steps {T : Type} {NT : Number T} (props : Props (T := T))
    (host : Host) (event : TouchEvent) (newScale : T) (st : State) :
  (_nthZoom st < 3)%nat ->
  let st' := _handleZoom props host event newScale st in
  _zoomFactor st' = _zoomFactor st
  /\ _offset st' = _offset st
  /\ effects st' = effects st
  /\ _lastScale st' = newScale
  /\ _nthZoom st' = S (_nthZoom st)
  /\ _lastZoomCenter st' = Some (getVectorAvg (_getOffsetTouches host event)).
Proof.
  intros Hn. cbv zeta. unfold _handleZoom. cbv zeta.
  cbn [_nthZoom set_nthZoom set_lastScale].
  replace (3 <? _nthZoom st + 1)%nat with false
    by (symmetry; apply Nat.ltb_ge; lia).
  cbn. repeat split. lia.
Qed.

Lemma handleZoom_first_steps_witness :
  let host := hostOf 300 300 300 300 in
  let event := touchesAt [(100, 100); (300, 100)]%Z in
  let st := set_nthZoom 2 (initialState (T := float)) in
  let st' := _handleZoom defaultProps host event 2%float st in
  _zoomFactor st' = _zoomFactor st
  /\ _offset st' = _offset st
  /\ effects st' = effects st
  /\ _lastScale st' = 2%float
  /\ _nthZoom st' = S (_nthZoom st)
  /\ _lastZoomCenter st' = Some (getVectorAvg (_getOffsetTouches host event)).
Proof.
  apply (handleZoom_first_steps defaultProps (hostOf 300 300 300 300)
           (touchesAt [(100, 100); (300, 100)]%Z) 2%float
           (set_nthZoom 2 (initialState (T := float)))).
  cbn. lia.
Defined.

(** X5.  From the fourth zoom step on, a zoom step multiplies the zoom
    factor by the quotient of the new scale by the last one, and clamps
    it. *)
Theorem handleZoom_later_steps {T : Type} {NT : Number T} (props : Props (T := T))
    (host : Host) (event : TouchEvent) (newScale : T) (st : State) :
  (3 <= _nthZoom st)%nat ->
  _zoomFactor (_handleZoom props host event newScale st)
  = clamp (minZoom props) (maxZoom props)
      (_zoomFactor st * (newScale / _lastScale st))%js.
Proof.
  intros Hn. unfold _handleZoom. cbv zeta.
  cbn [_nthZoom set_nthZoom set_lastScale].
  replace (3 <? _nthZoom st + 1)%nat with true
    by (symmetry; apply Nat.ltb_lt; lia).
  unfold _drag, _scale, _scaleZoomFactor. cbn.
  destruct (_lastZoomCenter st); [| reflexivity].
  destruct (negb (lockDragAxis props)); [reflexivity |].
  destruct (_ <? _)%js; reflexivity.
Qed.

Lemma handleZoom_later_steps_witness :
  let host := hostOf 300 300 300 300 in
  let event := touchesAt [(100, 100); (300, 100)]%Z in
  let st := set_nthZoom 3 (initialState (T := float)) in
  _zoomFactor (_handleZoom defaultProps host event 2%float st)
  = clamp (minZoom defaultProps) (maxZoom defaultProps)
      (_zoomFactor st * (2%float / _lastScale st))%js.
Proof.
  apply (handleZoom_later_steps defaultProps (hostOf 300 300 300 300)
           (touchesAt [(100, 100); (300, 100)]%Z) 2%float
           (set_nthZoom 3 (initialState (T := float)))).
  cbn. lia.
Defined.

(** X6.  Requests for an update coalesce: while one is planned [_update]
    does nothing, so that a call adds at most one [updateCallback] to the
    queue of frames, and a second call adds none. *)
Theorem update_coalesces {T : Type} {NT : Number T} (st : State (T := T)) :
  _update false (_update false st) = _update false st
  /\ frames (_update false st)
     = frames st ++ (if _updatePlaned st then [] else [updateCallback])
  /\ _updatePlaned (_update false st) = true.
Proof.
  unfold _update. destruct (_updatePlaned st) eqn:E; cbn.
  - rewrite E. repeat split. now rewrite app_nil_r.
  - repeat split.
Qed.

(** [_setInteraction] returns, with the new interaction set: the drag
    start it may call resets the last drag position before [_handleDrag]
    reads it, so that an event with no touch does not make it throw. *)
Lemma setInteraction_done {T : Type} {NT : Number T} (props : Props (T := T))
    (host : Host) (newInteraction : option Interaction) (event : TouchEvent)
    (st : State) :
  exists st',
    _setInteraction props host newInteraction event st = Done st'
    /\ _interaction st' = newInteraction.
Proof.
  unfold _setInteraction. cbv zeta.
  destruct (negb (sameInteraction (_interaction st) newInteraction)).
  - destruct newInteraction as [[|] |]; cbn [isZoomInteraction isDragInteraction].
    + eexists. split; reflexivity.
    + match goal with
      | |- context [_handleDragStart props host event ?s] =>
          destruct (effects_handleDragStart props host event s) as (st' & Hs & _);
          rewrite Hs
      end.
      eexists. split; reflexivity.
    + eexists. split; reflexivity.
  - eexists. split; reflexivity.
Qed.

(** X7.  [_updateInteraction] returns, and the interaction after it is zoom
    with two fingers, drag with one finger when the component can be
    dragged, none otherwise. *)
Theorem updateInteraction_table {T : Type} {NT : Number T} (props : Props (T := T))
    (host : Host) (event : TouchEvent) (st : State) :
  exists st',
    _updateInteraction props host event st = Done st'
    /\ _interaction st'
       = if (_fingers st =? 2)%nat then Some zoom
         else if (_fingers st =? 1)%nat && _canDrag props st then Some drag
         else None.
Proof.
  unfold _updateInteraction. cbv zeta.
  destruct (_fingers st =? 2)%nat; [apply setInteraction_done |].
  destruct ((_fingers st =? 1)%nat && _canDrag props st); apply setInteraction_done.
Qed.

(** X8.  A touch start with several fingers is no double tap (the clock
    being past its first 300 ms): it clears the double-tap flag and forgets
    the time of the last tap. *)
Theorem detectDoubleTap_fingers {T : Type} {NT : Number T} (props : Props (T := T))
    (host : Host) (event : TouchEvent) (st : State) :
  (1 < _fingers st)%nat -> (300 <= now st)%Z ->
  _detectDoubleTap props host event st
  = set_isDoubleTap false (set_lastTouchStart 0%Z st).
Proof.
  intros Hf Ht. unfold _detectDoubleTap. cbv zeta.
  replace (1 <? _fingers st)%nat with true by (symmetry; apply Nat.ltb_lt; lia).
  cbn [_lastTouchStart set_lastTouchStart].
  replace (now st - 0 <? 300)%Z with false by (symmetry; apply Z.ltb_ge; lia).
  cbn [_fingers set_isDoubleTap set_lastTouchStart].
  replace (_fingers st =? 1)%nat with false by (symmetry; apply Nat.eqb_neq; lia).
  reflexivity.
Qed.

Lemma detectDoubleTap_fingers_witness :
  let st := set_now 1000000 (set_fingers 2 (initialState (T := float))) in
  _detectDoubleTap defaultProps (hostOf 300 300 300 300)
    (touchesAt [(100, 100); (200, 100)]%Z) st
  = set_isDoubleTap false (set_lastTouchStart 0%Z st).
Proof.
  apply (detectDoubleTap_fingers defaultProps (hostOf 300 300 300 300)
           (touchesAt [(100, 100); (200, 100)]%Z)
           (set_now 1000000 (set_fingers 2 (initialState (T := float))))).
  - cbn. lia.
  - cbn. lia.
Defined.

(** *** Frames *)


(** *** Dragging, [scaleTo] and the wheel *)

(** X10.  A drag step at binary64 ends within the bounds: when the bounds
    of the offset are ordered, the offset [_handleDrag] leaves is its own
    [_sanitizeOffset], NaN included, and the zoom factor is as it was. *)
Theorem handleDrag_binary64_fixed_point (props : Props (T := float)) (host : Host)
    (event : TouchEvent) (st st' : State) :
  _handleDrag props host event st = Done st' ->
  PrimFloat.leb (minOffsetX props host st) (maxOffsetX props host st) = true ->
  PrimFloat.leb (minOffsetY props host st) (maxOffsetY props host st) = true ->
  _sanitizeOffset props host (_offset st') st' = _offset st'
  /\ _zoomFactor st' = _zoomFactor st.
Proof.
  intros Hd Hx Hy.
  assert (Hfix : forall o,
            _sanitizeOffset props host (_sanitizeOffset props host o st) st
            = _sanitizeOffset props host o st).
  { intros o. unfold _sanitizeOffset. cbv zeta. cbn [x y].
    f_equal; [exact (clamp_float_idempotent _ _ _ Hx)
             | exact (clamp_float_idempotent _ _ _ Hy)]. }
  assert (Hext : forall o s,
            _zoomFactor s = _zoomFactor st ->
            _initialZoomFactor s = _initialZoomFactor st ->
            _sanitizeOffset props host o s = _sanitizeOffset props host o st).
  { intros o s Hz Hi. apply sanitizeOffset_ext; assumption. }
  unfold _handleDrag in Hd.
  destruct (_getOffsetByFirstTouch host event) as [touch |].
  - injection Hd as <-. cbn [_offset _zoomFactor set_lastDragPosition set_offset].
    assert (Hz : _zoomFactor (_drag props touch (_lastDragPosition st) st) = _zoomFactor st).
    { unfold _drag. destruct (_lastDragPosition st); [| reflexivity].
      destruct (negb (lockDragAxis props)); [reflexivity |].
      destruct (_ <? _)%js; reflexivity. }
    assert (Hi : _initialZoomFactor (_drag props touch (_lastDragPosition st) st)
                 = _initialZoomFactor st).
    { unfold _drag. destruct (_lastDragPosition st); [| reflexivity].
      destruct (negb (lockDragAxis props)); [reflexivity |].
      destruct (_ <? _)%js; reflexivity. }
    split; [| exact Hz].
    rewrite (Hext _ (_drag props touch (_lastDragPosition st) st) Hz Hi).
    match goal with
    | |- _sanitizeOffset _ _ _ ?s = _ => rewrite (Hext _ s Hz Hi)
    end.
    apply Hfix.
  - destruct (_lastDragPosition st); [discriminate |].
    injection Hd as <-. cbn [_offset _zoomFactor set_lastDragPosition set_offset].
    split; [| reflexivity].
    match goal with
    | |- _sanitizeOffset _ _ _ ?s = _ => rewrite (Hext _ s eq_refl eq_refl)
    end.
    apply Hfix.
Qed.

Lemma handleDrag_binary64_fixed_point_witness :
  let host := hostOf 300 300 300 300 in
  let st := set_lastDragPosition (Some (pointAt (100, 100)%Z)) (zoomedPanned (T := float)) in
  let st' := stateOf (_handleDrag defaultProps host (touchesAt [(90, 120)%Z]) st) in
  _sanitizeOffset defaultProps host (_offset st') st' = _offset st'
  /\ _zoomFactor st' = _zoomFactor st.
Proof.
  apply (handleDrag_binary64_fixed_point defaultProps (hostOf 300 300 300 300)
           (touchesAt [(90, 120)%Z])
           (set_lastDragPosition (Some (pointAt (100, 100)%Z)) (zoomedPanned (T := float)))).
  - reflexivity.
  - vm_compute; reflexivity.
  - vm_compute; reflexivity.
Defined.

(** X11.  [scaleTo] resets the transform to the zoom factor 1 and the
    offset 0 and scales around the point given, which fixes its target.
    Not animated, it leaves the transform at the target.  Animated (the
    default), it puts the transform back where it was and queues an
    animation from there to the target, with the callback that settles. *)
Theorem scaleTo_transform {T : Type} {NT : Number T} (props : Props (T := T))
    (options : ScaleToOptions) (st : State) :
  let z' := clamp (minZoom props) (maxZoom props) (1 * (optScale options / 1))%js in
  let o' :=
    {| x := (0 + (z' / 1 - 1) * (optX options + 0))%js;
       y := (0 + (z' / 1 - 1) * (optY options + 0))%js |} in
  (optAnimated options = Some false ->
   _zoomFactor (scaleTo props options st) = z'
   /\ _offset (scaleTo props options st) = o'
   /\ _inAnimation (scaleTo props options st) = false)
  /\ (optAnimated options <> Some false ->
      _zoomFactor (scaleTo props options st) = _zoomFactor st
      /\ _offset (scaleTo props options st) = _offset st
      /\ startedAnimation st (scaleTo props options st)
         = Some {| startTime := now st;
                   animCallback := Some sanitizeCallback;
                   animDuration :=
                     match optDuration options with Some d => d | None => ofZ 250 end;
                   frameFn :=
                     scaleToFrame (_zoomFactor st) (z' - _zoomFactor st)%js (_offset st)
                       {| x := (x o' - x (_offset st))%js;
                          y := (y o' - y (_offset st))%js |} |}).
Proof.
  cbv zeta. split.
  - intros Ha. unfold scaleTo. rewrite Ha. cbv zeta. cbn [negb].
    match goal with
    | |- _zoomFactor (_update false ?s) = _ /\ _ =>
        destruct (update_transform false s) as (Ho & Hz & _); rewrite Ho, Hz
    end.
    unfold _update. destruct (_updatePlaned _); repeat split.
  - intros Ha. unfold scaleTo. cbv zeta.
    assert (E : match optAnimated options with Some a => a | None => true end = true).
    { destruct (optAnimated options) as [[|] |]; try reflexivity. now contradiction Ha. }
    rewrite E. cbn [negb].
    split; [reflexivity |]. split; [reflexivity |].
    unfold startedAnimation, _animate, requestAnimationFrame. cbn.
    rewrite skipn_all_app. reflexivity.
Qed.

Lemma scaleTo_transform_witness :
  _zoomFactor (scaleTo tenthMinZoom scaleToTenth (zoomedIn (T := float)))
  = _zoomFactor (zoomedIn (T := float))
  /\ _offset (scaleTo tenthMinZoom scaleToTenth (zoomedIn (T := float)))
     = _offset (zoomedIn (T := float)).
Proof.
  destruct (scaleTo_transform tenthMinZoom scaleToTenth (zoomedIn (T := float)))
    as [_ H].
  destruct H as (Hz & Ho & _); [discriminate |]. split; assumption.
Defined.

(** The timers after a wheel event that is processed: the pending one of an
    earlier wheel event is cleared and a new one is set. *)
Lemma handlerWheel_timers {T : Type} {NT : Number T} (props : Props (T := T))
    (host : Host) (wheelEvent : WheelEvent) (st : State) :
  shouldInterceptWheelProp props wheelEvent = false ->
  exists st',
    _handlerWheel props host wheelEvent st = Done st'
    /\ timers st'
       = match _wheelTimeOut st with
         | Some previous => remove Nat.eq_dec previous (timers st)
         | None => timers st
         end ++ [nextTimer st]
    /\ _wheelTimeOut st' = Some (nextTimer st)
    /\ nextTimer st' = S (nextTimer st).
Proof.
  intros Hp. unfold _handlerWheel. rewrite Hp. cbv zeta.
  cbn [_getOffsetByFirstTouch _getOffsetTouches touches getPageCoordinatesByTouches
       map hd_error].
  eexists. split; [reflexivity |].
  unfold _update, _scaleTo, _scale, _scaleZoomFactor. cbv zeta.
  cbn [fst snd]. unfold setTimeout, clearTimeout, emit, _addOffset, _stopAnimation.
  cbn; destruct (_updatePlaned st); cbn; destruct (_wheelTimeOut st); repeat split.
Qed.

(** X12.  A burst of two wheel events that are processed leaves one timer
    pending, the one of the second event. *)
Theorem wheel_burst {T : Type} {NT : Number T} (props : Props (T := T))
    (host : Host) (first second : WheelEvent) (st : State) :
  shouldInterceptWheelProp props first = false ->
  shouldInterceptWheelProp props second = false ->
  timers st = [] -> _wheelTimeOut st = None ->
  let st' :=
    stateOf (_handlerWheel props host second
               (stateOf (_handlerWheel props host first st))) in
  timers st' = [S (nextTimer st)]
  /\ _wheelTimeOut st' = Some (S (nextTimer st)).
Proof.
  intros H1 H2 Ht Hw. cbv zeta.
  destruct (handlerWheel_timers props host first st H1) as (s1 & E1 & T1 & W1 & N1).
  rewrite E1. cbn [stateOf].
  destruct (handlerWheel_timers props host second s1 H2) as (s2 & E2 & T2 & W2 & N2).
  rewrite E2. cbn [stateOf].
  rewrite T2, W2, W1, T1, Hw, Ht, N1. cbn [app remove].
  destruct (Nat.eq_dec (nextTimer st) (nextTimer st)) as [_ | Hne];
    [| now contradiction Hne].
  split; reflexivity.
Qed.

Lemma wheel_burst_witness :
  let host := hostOf 300 300 300 300 in
  let st' :=
    stateOf (_handlerWheel defaultProps host (wheelUp true)
               (stateOf (_handlerWheel defaultProps host (wheelUp true)
                           (initialState (T := float))))) in
  timers st' = [S (nextTimer (initialState (T := float)))]
  /\ _wheelTimeOut st' = Some (S (nextTimer (initialState (T := float)))).
Proof.
  apply (wheel_burst defaultProps (hostOf 300 300 300 300) (wheelUp true) (wheelUp true)
           (initialState (T := float))); reflexivity.
Defined.
